(** * Websocket connection manager

    A shallow embedding of
    [components/server/src/websocket/websocket-connection-manager.ts]:
    the identity resolver ([ClientMetadata]), the per-client endpoint list
    ([WebsocketClientContext]), the registry of client contexts
    ([WebsocketConnectionManager]) and the per-call interceptor
    ([GitpodJsonRpcProxyFactory.onRequest]).

    JavaScript values are modelled as the code uses them: an optional string
    is an [option string] whose truthiness is written out, arrays are lists,
    the [Map] of contexts is a [gmap] keyed by the client id, and context
    objects live in a store so that the closures registered on a connection
    keep aliasing the object they captured. *)

From stdpp Require Import base numbers option list strings gmap pretty.

Open Scope Z_scope.

(** ** JavaScript helpers *)

Module Js.

(** Truthiness of a [string | undefined]: [undefined] and the empty string
    are falsy, everything else is truthy. *)
Definition truthy (o : option string) : bool :=
  match o with
  | Some s => bool_decide (s ≠ EmptyString)
  | None => false
  end.

(** [s.startsWith(p)] *)
Definition startsWith (s p : string) : bool := String.prefix p s.

(** [Array.prototype.findIndex]: the index of the first element that
    satisfies [p], and [-1] when there is none. *)
Fixpoint findIndex {A} (p : A → bool) (l : list A) : Z :=
  match l with
  | [] => -1
  | x :: l' =>
      if p x then 0
      else let i := findIndex p l' in if i =? -1 then -1 else i + 1
  end.

(** [arr.splice(start)] with the delete count left out: every element from
    [start] to the end of the array is removed. A negative [start] counts
    from the end, and the start is clamped to the bounds of the array. The
    result is what stays in the array. *)
Definition splice_from {A} (start : Z) (l : list A) : list A :=
  let len := Z.of_nat (length l) in
  let from := if start <? 0 then Z.max (len + start) 0 else Z.min start len in
  take (Z.to_nat from) l.

(** The values that reach the [Retry-After] field. *)
Inductive value :=
| VString (s : string)
| VNumber (n : Z).

Definition to_boolean (v : value) : bool :=
  match v with
  | VString s => bool_decide (s ≠ EmptyString)
  | VNumber n => bool_decide (n ≠ 0)
  end.

(** [a || b] *)
Definition or (a b : value) : value := if to_boolean a then a else b.

(** [Math.round(ms / 1000)] for an integral number of milliseconds, as the
    rate limiter reports them: the nearest integer, a tie going up. The
    program computes on doubles; the two agree for integral [ms] of
    magnitude below [2^53], where the division is exact enough. *)
Definition round_div_1000 (ms : Z) : Z := (ms + 500) `div` 1000.

(** [String(n)] for an integer [n], in decimal digits. The program switches
    to exponent notation from [1e21] on, which no [ms] below [2^53]
    reaches. *)
Definition String_ (n : Z) : string := pretty n.

End Js.

(** ** Client types and metadata *)

Inductive WebsocketClientType := browser | go_client | vs_code.

Inductive WebsocketAuthenticationLevel := user | session | anonymous.

Record User := { user_id : string }.
Record Session := { session_id : string }.

(** The part of an [express.Request] that the manager reads. *)
Record Request := {
  req_user : option User;
  req_session : option Session;
  req_user_agent : option string;
}.

Definition getClientType (req : Request) : option WebsocketClientType :=
  let userAgent := req_user_agent req in
  match userAgent with
  | None => None
  | Some ua =>
      if negb (Js.truthy userAgent) then None
      else if Js.startsWith ua "Go-http-client" then Some go_client
      else if Js.startsWith ua "Mozilla" then Some browser
      else if Js.startsWith ua "VS Code" then Some vs_code
      else None
  end.

Record ClientMetadata := {
  id : string;
  authLevel : WebsocketAuthenticationLevel;
  sessionId : option string;
  userId : option string;
  type : option WebsocketClientType;
}.

Module ClientMetadata.

(** [if (userId)] and [else if (sessionId)] test truthiness; inside a branch
    the value is a string, which [default] reads off the option. *)
Definition from (userId sessionId : option string)
    (type : option WebsocketClientType) : ClientMetadata :=
  let id := "anonymous" in
  let authLevel := anonymous in
  let '(id, authLevel) :=
    if Js.truthy userId then (default EmptyString userId, user)
    else if Js.truthy sessionId then ("session-" +:+ default EmptyString sessionId, session)
    else (id, authLevel) in
  {| id := id; authLevel := authLevel; userId := userId;
     sessionId := sessionId; type := type |}.

Definition fromRequest (req : Request) : ClientMetadata :=
  let user := req_user req in
  let sessionId := session_id <$> req_session req in
  let type := getClientType req in
  from (user_id <$> user) sessionId type.

End ClientMetadata.

(** ** Client contexts *)

Record GitpodServerImpl := { uuid : string }.

Record WebsocketClientContext := {
  clientMetadata : ClientMetadata;
  servers : list GitpodServerImpl;
}.

Module WebsocketClientContext.

Definition new (metadata : ClientMetadata) : WebsocketClientContext :=
  {| clientMetadata := metadata; servers := [] |}.

Definition clientId (ctx : WebsocketClientContext) : string :=
  id (clientMetadata ctx).

Definition addEndpoint (server : GitpodServerImpl)
    (ctx : WebsocketClientContext) : WebsocketClientContext :=
  {| clientMetadata := clientMetadata ctx; servers := servers ctx ++ [server] |}.

Definition removeEndpoint (server : GitpodServerImpl)
    (ctx : WebsocketClientContext) : WebsocketClientContext :=
  let index :=
    Js.findIndex (λ s, bool_decide (uuid s = uuid server)) (servers ctx) in
  if bool_decide (index ≠ -1) then
    {| clientMetadata := clientMetadata ctx;
       servers := Js.splice_from index (servers ctx) |}
  else ctx.

Definition hasNoEndpointsLeft (ctx : WebsocketClientContext) : bool :=
  bool_decide (length (servers ctx) = 0%nat).

End WebsocketClientContext.

(** ** The connection manager

    Context objects are mutable and shared: the registry maps a client id to
    an object, and the close handler of every connection keeps the object it
    was given when the connection was made. The store holds the objects in
    allocation order; a [ctxref] is an index into it. The server's own
    [initialize] and [dispose] and the Prometheus counters do not touch this
    state and are left out. *)

Definition ctxref := nat.

Inductive Event :=
| EVENT_CONNECTION_CREATED (server : GitpodServerImpl) (req : Request)
| EVENT_CONNECTION_CLOSED (server : GitpodServerImpl) (req : Request)
| EVENT_CLIENT_CONTEXT_CREATED (ctx : ctxref)
| EVENT_CLIENT_CONTEXT_CLOSED (ctx : ctxref).

Global Instance User_eq_dec : EqDecision User.
Proof. solve_decision. Defined.
Global Instance Session_eq_dec : EqDecision Session.
Proof. solve_decision. Defined.
Global Instance Request_eq_dec : EqDecision Request.
Proof. solve_decision. Defined.
Global Instance GitpodServerImpl_eq_dec : EqDecision GitpodServerImpl.
Proof. solve_decision. Defined.
Global Instance Event_eq_dec : EqDecision Event.
Proof. solve_decision. Defined.

Record WebsocketConnectionManager := {
  store : list WebsocketClientContext;
  contexts : gmap string ctxref;
  events : list Event;
}.

(** What the callback given to [client.onDidCloseConnection] captured. *)
Record CloseHandler := {
  closing_server : GitpodServerImpl;
  closing_req : Request;
  closing_ctx : ctxref;
}.

Module WebsocketConnectionManager.

Definition new : WebsocketConnectionManager :=
  {| store := []; contexts := ∅; events := [] |}.

Definition emit (e : Event) (m : WebsocketConnectionManager) :
    WebsocketConnectionManager :=
  {| store := store m; contexts := contexts m; events := events m ++ [e] |}.

Definition getOrCreateClientContext (expressReq : Request)
    (m : WebsocketConnectionManager) : ctxref * WebsocketConnectionManager :=
  let metadata := ClientMetadata.fromRequest expressReq in
  match contexts m !! id metadata with
  | Some ctx => (ctx, m)
  | None =>
      let ctx := length (store m) in
      (ctx,
       emit (EVENT_CLIENT_CONTEXT_CREATED ctx)
         {| store := store m ++ [WebsocketClientContext.new metadata];
            contexts := <[id metadata := ctx]> (contexts m);
            events := events m |})
  end.

(** [gitpodServer] is what [this.serverFactory()] returned. *)
Definition createProxyTarget (expressReq : Request)
    (gitpodServer : GitpodServerImpl) (m : WebsocketConnectionManager) :
    CloseHandler * WebsocketConnectionManager :=
  let '(clientContext, m) := getOrCreateClientContext expressReq m in
  let onClose :=
    {| closing_server := gitpodServer; closing_req := expressReq;
       closing_ctx := clientContext |} in
  let m :=
    {| store :=
         alter (WebsocketClientContext.addEndpoint gitpodServer)
           clientContext (store m);
       contexts := contexts m; events := events m |} in
  (onClose, emit (EVENT_CONNECTION_CREATED gitpodServer expressReq) m).

(** The body of the callback given to [client.onDidCloseConnection]. *)
Definition onDidCloseConnection (h : CloseHandler)
    (m : WebsocketConnectionManager) : WebsocketConnectionManager :=
  let m := emit (EVENT_CONNECTION_CLOSED (closing_server h) (closing_req h)) m in
  let m :=
    {| store :=
         alter (WebsocketClientContext.removeEndpoint (closing_server h))
           (closing_ctx h) (store m);
       contexts := contexts m; events := events m |} in
  match store m !! closing_ctx h with
  | Some clientContext =>
      if WebsocketClientContext.hasNoEndpointsLeft clientContext then
        emit (EVENT_CLIENT_CONTEXT_CLOSED (closing_ctx h))
          {| store := store m;
             contexts :=
               delete (WebsocketClientContext.clientId clientContext) (contexts m);
             events := events m |}
      else m
  | None => m
  end.

End WebsocketConnectionManager.

(** ** Sequences of connection opens and closes

    A connection is opened with the request it came with and the server the
    factory made for it; it is closed by its position in the order of
    opening. The transport fires the close callback of a connection once, so
    closing a connection that is not open does nothing. *)

Inductive Step :=
| Open (req : Request) (server : GitpodServerImpl)
| Close (conn : nat).

Record World := {
  manager : WebsocketConnectionManager;
  connections : list (CloseHandler * bool);
}.

Definition step (w : World) (s : Step) : World :=
  match s with
  | Open req server =>
      let '(h, m) := WebsocketConnectionManager.createProxyTarget req server (manager w) in
      {| manager := m; connections := connections w ++ [(h, true)] |}
  | Close conn =>
      match connections w !! conn with
      | Some (h, true) =>
          {| manager := WebsocketConnectionManager.onDidCloseConnection h (manager w);
             connections := <[conn := (h, false)]> (connections w) |}
      | _ => w
      end
  end.

Definition run (steps : list Step) : World :=
  foldl step {| manager := WebsocketConnectionManager.new; connections := [] |} steps.

(** The servers of the connections of [clientId] that are open. *)
Definition open_endpoints (clientId : string) (w : World) : list GitpodServerImpl :=
  closing_server <$>
    (fst <$> filter (λ c, snd c = true ∧
                 id (ClientMetadata.fromRequest (closing_req (fst c))) = clientId)
               (connections w)).

(** The context objects of [clientId] that still list an endpoint. *)
Definition live_contexts (clientId : string) (w : World) : list WebsocketClientContext :=
  filter (λ c, WebsocketClientContext.clientId c = clientId ∧ servers c ≠ [])
    (store (manager w)).

(** How many times [e] was emitted. *)
Definition count_event (e : Event) (m : WebsocketConnectionManager) : nat :=
  length (filter (λ x, x = e) (events m)).

(** ** The per-call interceptor

    [onRequest] talks to collaborators that are not part of this file: the
    metrics counters, the tracer, the logger, the rate limiter, the access
    guard and the backend handler. A run of [onRequest] is modelled by the
    calls it makes to them, in order, and by how its promise settles. *)

Record ResponseError := {
  code : Z;
  message : string;
  data : option Js.value;   (* the [Retry-After] entry, when there is one *)
}.

(** What a [catch] clause can receive. [ResponseError] extends [Error]; the
    rate limiter rejects a call over the quota with a plain object that
    carries [msBeforeNext]. *)
Inductive Thrown :=
| ThrownResponseError (e : ResponseError)
| ThrownError (detail : string)
| ThrownRateLimiterRes (msBeforeNext : Z).

Definition instanceof_Error (t : Thrown) : bool :=
  match t with
  | ThrownResponseError _ | ThrownError _ => true
  | ThrownRateLimiterRes _ => false
  end.

Definition instanceof_ResponseError (t : Thrown) : bool :=
  match t with
  | ThrownResponseError _ => true
  | _ => false
  end.

(** The error codes of [@gitpod/gitpod-protocol/lib/messaging/error]; their
    values are declared outside this file. *)
Record ErrorCodesT := {
  PERMISSION_DENIED : Z;
  TOO_MANY_REQUESTS : Z;
}.

Section Interceptor.

(** What a backend method takes and returns. *)
Context {Value : Type}.
Variable ErrorCodes : ErrorCodesT.

Inductive Call :=
| IncreaseApiCallUserCounter (method user : string)
| ChildContext (method : string)
| TraceClientMetadata (clientMetadata : ClientMetadata)
| SetOWI (userId sessionId : option string)
| SetJsonRPCMetadata (method : string)
| Consume (user method : string)
| LogError (userId : option string) (msg : string) (cause : Thrown)
| LogWarn (userId : option string) (msg : string) (rejected : Thrown) (method : string)
| LogInfo (userId : option string) (method : string) (e : ResponseError)
| CanAccess (method : string) (allowed : bool)
| SessionTouch
| Invoke (method : string) (args : list Value)
| IncreaseApiCallCounter (method : string) (code : Z)
| SetJsonRPCError (method : string) (e : ResponseError)
| SetError (e : Thrown)
| SpanFinish (method : string).

Inductive Settled (T : Type) :=
| Resolved (v : T)
| Rejected (e : Thrown).
Global Arguments Resolved {T} v.
Global Arguments Rejected {T} e.

(** A computation: the calls made, oldest first, and the outcome. *)
Definition M (T : Type) : Type := list Call * Settled T.

Definition ret {T} (v : T) : M T := ([], Resolved v).
Definition throw {T} (e : Thrown) : M T := ([], Rejected e).
Definition call (c : Call) : M unit := ([c], Resolved tt).

Definition bind {T U} (m : M T) (k : T → M U) : M U :=
  match m with
  | (l, Resolved v) => let '(l', r) := k v in (l ++ l', r)
  | (l, Rejected e) => (l, Rejected e)
  end.

(** [try { m } catch (e) { h e }] *)
Definition try_catch {T} (m : M T) (h : Thrown → M T) : M T :=
  match m with
  | (l, Resolved v) => (l, Resolved v)
  | (l, Rejected e) => let '(l', r) := h e in (l ++ l', r)
  end.

(** [try { m } finally { f }], for an [f] that completes normally or
    throws; in the latter case its exception replaces the outcome of [m]. *)
Definition try_finally {T} (m : M T) (f : M unit) : M T :=
  match m, f with
  | (l, r), (l', Resolved _) => (l ++ l', r)
  | (l, _), (l', Rejected e) => (l ++ l', Rejected e)
  end.

(** The monad notations are stdpp's: [x ← m; k] and [m;; k]. *)
Global Instance M_ret : MRet M := @ret.
Global Instance M_bind : MBind M := λ T U k m, bind m k.

Definition calls {T} (m : M T) : list Call := fst m.
Definition outcome {T} (m : M T) : Settled T := snd m.

(** The collaborators. [consume] settles with [None] when the call is let
    through and with the rejection otherwise. *)
Record RateLimiter := {
  rl_user : string;
  consume : string → option Thrown;
}.

Record FunctionAccessGuard := {
  canAccess : string → bool;
}.

(** The proxy around the server made by [createProxyTarget]: reading a
    property touches the session when there is one, and yields the
    server's method of that name when it has one. *)
Record Target := {
  has_session : bool;
  methods : string → option (list Value → Settled Value);
}.

Record GitpodJsonRpcProxyFactory := {
  accessGuard : FunctionAccessGuard;
  rateLimiter : RateLimiter;
  factoryMetadata : ClientMetadata;
  target : Target;
}.

Variable this : GitpodJsonRpcProxyFactory.

Definition await_consume (method : string) : M unit :=
  call (Consume (rl_user (rateLimiter this)) method);;
  match consume (rateLimiter this) method with
  | None => ret tt
  | Some rlRejected => throw rlRejected
  end.

(** [await this.target[method](ctx, ...args)] *)
Definition await_target (method : string) (args : list Value) : M Value :=
  (if has_session (target this) then call SessionTouch else ret tt);;
  match methods (target this) method with
  | Some f => call (Invoke method args);; ([], f args)
  | None => throw (ThrownError "this.target[method] is not a function")
  end.

Definition retry_after (msBeforeNext : Z) : Js.value :=
  Js.or (Js.VString (Js.String_ (Js.round_div_1000 msBeforeNext))) (Js.VNumber 1).

Definition onRequest (method : string) (args : list Value) : M Value :=
  (if negb (Js.startsWith (rl_user (rateLimiter this)) "session-")
   then call (IncreaseApiCallUserCounter method (rl_user (rateLimiter this)))
   else call (IncreaseApiCallUserCounter method "anonymous"));;
  call (ChildContext method);;
  let userId := userId (factoryMetadata this) in
  try_finally
    (try_catch
       (call (TraceClientMetadata (factoryMetadata this));;
        call (SetOWI userId (sessionId (factoryMetadata this)));;
        call (SetJsonRPCMetadata method);;
        (* rate limiting *)
        try_catch (await_consume method)
          (λ rlRejected,
             match rlRejected with
             | ThrownRateLimiterRes msBeforeNext =>
                 call (LogWarn userId
                   "Rate limiter prevents accessing method due to too many requests."
                   rlRejected method);;
                 throw (ThrownResponseError
                   {| code := TOO_MANY_REQUESTS ErrorCodes;
                      message := "too many requests";
                      data := Some (retry_after msBeforeNext) |})
             | _ =>
                 call (LogError userId "Unexpected error in the rate limiter"
                   rlRejected);;
                 throw rlRejected
             end);;
        (* access guard *)
        allowed ← (let b := canAccess (accessGuard this) method in
                   call (CanAccess method b);; ret b);
        (if negb allowed then
           throw (ThrownResponseError
             {| code := PERMISSION_DENIED ErrorCodes;
                message := "Request " +:+ method +:+ " is not allowed";
                data := None |})
         else ret tt);;
        (* actual call *)
        result ← await_target method args;
        call (IncreaseApiCallCounter method 200);;
        ret result)
       (λ e,
          match e with
          | ThrownResponseError e' =>
              call (IncreaseApiCallCounter method (code e'));;
              call (SetJsonRPCError method e');;
              call (LogInfo userId method e')
          | _ =>
              call (SetError e);;
              let err := {| code := 500; message := "internal server error";
                            data := None |} in
              call (IncreaseApiCallCounter method (code err));;
              call (SetJsonRPCError method err);;
              call (LogError userId
                ("Request " +:+ method +:+ " failed with internal server error") e)
          end;;
          throw e))
    (call (SpanFinish method)).

(** The generic error that stands for an unexpected fault in the metrics
    and on the span. *)
Definition internal_server_error : ResponseError :=
  {| code := 500; message := "internal server error"; data := None |}.

Definition too_many_requests (retryAfter : Js.value) : ResponseError :=
  {| code := TOO_MANY_REQUESTS ErrorCodes; message := "too many requests";
     data := Some retryAfter |}.

Definition permission_denied (method : string) : ResponseError :=
  {| code := PERMISSION_DENIED ErrorCodes;
     message := "Request " +:+ method +:+ " is not allowed"; data := None |}.

(** An unexpected fault of a call: an [Error] the rate limiter rejects
    with, or whatever the backend method throws once the call got through
    the rate limiter and the access guard; in both cases something that is
    not a [ResponseError]. *)
Definition unexpected_fault (method : string) (args : list Value) (fault : Thrown) : Prop :=
  instanceof_ResponseError fault = false ∧
  ((consume (rateLimiter this) method = Some fault ∧
    instanceof_Error fault = true) ∨
   (consume (rateLimiter this) method = None ∧
    canAccess (accessGuard this) method = true ∧
    ∃ f, methods (target this) method = Some f ∧ f args = Rejected fault)).

End Interceptor.

Arguments Call : clear implicits.
Arguments M : clear implicits.
Arguments Target : clear implicits.
Arguments GitpodJsonRpcProxyFactory : clear implicits.

(** ** Wiring a connection *)

Section ConnectionHandler.

(** [UserRateLimiter.instance(config).consume(clientId, method)], which
    lives in [../auth/rate-limiter]. *)
Variable UserRateLimiter_consume : string → string → option Thrown.

Definition createRateLimiter (clientId : string) (req : Request) : RateLimiter :=
  {| rl_user := clientId;
     consume := λ method, UserRateLimiter_consume clientId method |}.

(** The rate limiter that [GitpodJsonRpcConnectionHandler.onConnection]
    hands to the proxy factory of a connection. *)
Definition connectionRateLimiter (request : Request) : RateLimiter :=
  let clientMetadata := ClientMetadata.fromRequest request in
  createRateLimiter (id clientMetadata) request.

End ConnectionHandler.

(** ** Named inputs *)

Definition u1 : Request :=
  {| req_user := Some {| user_id := "u1" |}; req_session := None;
     req_user_agent := Some "Mozilla/5.0" |}.

Definition server_A : GitpodServerImpl := {| uuid := "A" |}.
Definition server_B : GitpodServerImpl := {| uuid := "B" |}.
Definition server_C : GitpodServerImpl := {| uuid := "C" |}.
Definition server_D : GitpodServerImpl := {| uuid := "D" |}.

(** Sample values for the two codes, for the worked examples; the theorems
    hold for any values. *)
Definition gitpod_codes : ErrorCodesT :=
  {| PERMISSION_DENIED := 403; TOO_MANY_REQUESTS := 429 |}.

(** A factory for a signed-in user whose collaborators answer the same for
    every method: [rl] is how [consume] settles, [allowed] what the guard
    says and [handler] the backend method. *)
Definition sample_factory (rl : option Thrown) (allowed : bool)
    (handler : option (list nat → Settled nat)) : GitpodJsonRpcProxyFactory nat :=
  {| accessGuard := {| canAccess := λ _, allowed |};
     rateLimiter := {| rl_user := "u1"; consume := λ _, rl |};
     factoryMetadata := ClientMetadata.from (Some "u1") None (Some browser);
     target := {| has_session := true; methods := λ _, handler |} |}.

(** The scenarios: two connections of [u1], the first one closed, then
    both closed; and a third connection opened between the two closes,
    followed by a fourth. *)
Definition two_open : list Step := [Open u1 server_A; Open u1 server_B].
Definition first_closed : list Step := two_open ++ [Close 0%nat].
Definition both_closed : list Step := first_closed ++ [Close 1%nat].
Definition reopened : list Step :=
  first_closed ++ [Open u1 server_C; Close 1%nat].
Definition reopened_twice : list Step := reopened ++ [Open u1 server_D].

(** ** The resolution order as the specification words it

    A user id that is present wins, then a session id that is present, then
    the anonymous sentinel. *)
Definition resolution_by_presence (userId sessionId : option string) :
    string * WebsocketAuthenticationLevel :=
  match userId, sessionId with
  | Some u, _ => (u, user)
  | None, Some s => ("session-" +:+ s, session)
  | None, None => ("anonymous", anonymous)
  end.

(** An empty string read as an absent value. *)
Definition non_empty (o : option string) : option string :=
  if Js.truthy o then o else None.

(** The calls that open or close the span of a call. *)
Definition is_span_call {Value} (c : Call Value) : bool :=
  match c with
  | ChildContext _ | SpanFinish _ => true
  | _ => false
  end.

(** ** Wiring the interceptor of a connection *)

Section ProxyFactoryWiring.

Context {Value : Type}.

(** [UserRateLimiter.instance(config).consume(clientId, method)] and
    [new AllAccessFunctionGuard()], which live in [../auth]. *)
Variable UserRateLimiter_consume : string → string → option Thrown.
Variable AllAccessFunctionGuard : FunctionAccessGuard.

(** [functionGuard] is the field of that name of the request, when it has
    one. *)
Definition createAccessGuard (functionGuard : option FunctionAccessGuard) :
    FunctionAccessGuard :=
  default AllAccessFunctionGuard functionGuard.

(** The proxy that [createProxyTarget] returns for a server with the
    methods [server_methods]: every property read touches the session of the
    request when it has one. *)
Definition proxyTarget (expressReq : Request)
    (server_methods : string → option (list Value → Settled Value)) :
    Target Value :=
  {| has_session := bool_decide (is_Some (req_session expressReq));
     methods := server_methods |}.

(** The proxy factory that [GitpodJsonRpcConnectionHandler.onConnection]
    makes for a connection and points at the proxy of its server. *)
Definition onConnection (request : Request)
    (functionGuard : option FunctionAccessGuard)
    (server_methods : string → option (list Value → Settled Value)) :
    GitpodJsonRpcProxyFactory Value :=
  let clientMetadata := ClientMetadata.fromRequest request in
  {| accessGuard := createAccessGuard functionGuard;
     rateLimiter :=
       createRateLimiter UserRateLimiter_consume (id clientMetadata) request;
     factoryMetadata := clientMetadata;
     target := proxyTarget request server_methods |}.

End ProxyFactoryWiring.

(** ** Observations on runs and calls *)

(** The status a call is counted with. *)
Definition status_of {T} (o : Settled T) : Z :=
  match o with
  | Resolved _ => 200
  | Rejected (ThrownResponseError e) => code e
  | Rejected _ => 500
  end.

Definition is_api_call_counter {Value} (c : Call Value) : bool :=
  match c with
  | IncreaseApiCallCounter _ _ => true
  | _ => false
  end.

Definition is_consume {Value} (c : Call Value) : bool :=
  match c with
  | Consume _ _ => true
  | _ => false
  end.

Definition is_invoke {Value} (c : Call Value) : bool :=
  match c with
  | Invoke _ _ => true
  | _ => false
  end.

Definition is_can_access {Value} (c : Call Value) : bool :=
  match c with
  | CanAccess _ _ => true
  | _ => false
  end.

Definition is_set_error {Value} (c : Call Value) : bool :=
  match c with
  | SetError _ => true
  | _ => false
  end.

Definition is_Open (s : Step) : bool :=
  match s with
  | Open _ _ => true
  | Close _ => false
  end.

(** Every entry of the registry points at a context object, and that
    object carries the id it is registered under. *)
Definition registry_wf (m : WebsocketConnectionManager) : Prop :=
  ∀ k c, contexts m !! k = Some c →
    ∃ ctx, store m !! c = Some ctx ∧ WebsocketClientContext.clientId ctx = k.

(** Every close handler holds a context object, and that object carries the
    id the request of the connection resolves to. *)
Definition handlers_wf (w : World) : Prop :=
  ∀ i h b, connections w !! i = Some (h, b) →
    ∃ ctx, store (manager w) !! closing_ctx h = Some ctx ∧
      WebsocketClientContext.clientId ctx
        = id (ClientMetadata.fromRequest (closing_req h)).

Definition world_wf (w : World) : Prop :=
  registry_wf (manager w) ∧ handlers_wf w.

(** On a world where nothing was closed: the context registered under [k]
    lists the open endpoints of [k], and there is one exactly when [k] has
    an open endpoint. *)
Definition registry_matches_endpoints (w : World) : Prop :=
  ∀ k,
    match contexts (manager w) !! k with
    | Some c =>
        ∃ ctx, store (manager w) !! c = Some ctx ∧
          servers ctx = open_endpoints k w ∧ servers ctx ≠ []
    | None => open_endpoints k w = []
    end.

(** The identity a step acts for: the one the request of the connection
    resolves to. A close of a connection that was never opened acts for
    nobody. *)
Definition step_identity (w : World) (s : Step) : option string :=
  match s with
  | Open req _ => Some (id (ClientMetadata.fromRequest req))
  | Close conn =>
      (λ c, id (ClientMetadata.fromRequest (closing_req c.1)))
        <$> connections w !! conn
  end.

(** The client metadata that [createProxyTarget] hands to
    [gitpodServer.initialize]: [clientContext.clientMetadata], read from the
    context object that [getOrCreateClientContext] returned. *)
Definition initialize_clientMetadata (expressReq : Request)
    (m : WebsocketConnectionManager) : option ClientMetadata :=
  let '(clientContext, m) :=
    WebsocketConnectionManager.getOrCreateClientContext expressReq m in
  clientMetadata <$> store m !! clientContext.

(** The name an event is emitted under. *)
Definition event_name (e : Event) : string :=
  match e with
  | EVENT_CONNECTION_CREATED _ _ => "EVENT_CONNECTION_CREATED"
  | EVENT_CONNECTION_CLOSED _ _ => "EVENT_CONNECTION_CLOSED"
  | EVENT_CLIENT_CONTEXT_CREATED _ => "EVENT_CLIENT_CONTEXT_CREATED"
  | EVENT_CLIENT_CONTEXT_CLOSED _ => "EVENT_CLIENT_CONTEXT_CLOSED"
  end.

(** How many events were emitted under [name]. *)
Definition count_named (name : string) (l : list Event) : nat :=
  length (filter (λ e, event_name e = name) l).

(** The connections that were closed. *)
Definition closed_connections (w : World) : list (CloseHandler * bool) :=
  filter (λ c, c.2 = false) (connections w).

Definition is_session_touch {Value} (c : Call Value) : bool :=
  match c with
  | SessionTouch => true
  | _ => false
  end.

(** Each notification is accounted for: one connection created per
    connection made, one connection closed per connection closed, one
    context created per context object made, and no more contexts closed
    than connections closed. *)
Definition notifications_accounted (w : World) : Prop :=
  count_named "EVENT_CONNECTION_CREATED" (events (manager w))
    = length (connections w) ∧
  count_named "EVENT_CONNECTION_CLOSED" (events (manager w))
    = length (closed_connections w) ∧
  count_named "EVENT_CLIENT_CONTEXT_CREATED" (events (manager w))
    = length (store (manager w)) ∧
  (count_named "EVENT_CLIENT_CONTEXT_CLOSED" (events (manager w))
   ≤ count_named "EVENT_CONNECTION_CLOSED" (events (manager w)))%nat.

(** Three connections with neither a user nor a session, from three kinds of
    client, and the run in which the first is closed before the third is
    opened. *)
Definition anon_browser : Request :=
  {| req_user := None; req_session := None;
     req_user_agent := Some "Mozilla/5.0" |}.
Definition anon_vs_code : Request :=
  {| req_user := None; req_session := None;
     req_user_agent := Some "VS Code 1.60" |}.
Definition anon_go : Request :=
  {| req_user := None; req_session := None;
     req_user_agent := Some "Go-http-client/1.1" |}.
Definition anonymous_three : list Step :=
  [Open anon_browser server_A; Open anon_vs_code server_B; Close 0%nat;
   Open anon_go server_C].

(** The largest magnitude up to which every integer is a double. *)
Definition MAX_SAFE : Z := 2 ^ 53.

(** * Properties *)

(** ** JavaScript helpers *)

Lemma findIndex_bounds {A} (p : A → bool) (l : list A) :
  Js.findIndex p l = -1 ∨ 0 ≤ Js.findIndex p l < Z.of_nat (length l).
Proof.
  induction l as [|x l IH]; simpl; [by left|].
  destruct (p x); [right; lia|].
  destruct (Z.eqb_spec (Js.findIndex p l) (-1)); [by left|].
  right. destruct IH; lia.
Qed.

Lemma findIndex_no_match {A} (p : A → bool) (l : list A) :
  (∀ x, x ∈ l → p x = false) → Js.findIndex p l = -1.
Proof.
  induction l as [|x l IH]; intros Hall; simpl; [done|].
  rewrite (Hall x) by apply list_elem_of_here.
  rewrite IH; [done|]. intros y Hy. apply Hall. by apply list_elem_of_further.
Qed.

Lemma findIndex_match {A} (p : A → bool) (l : list A) (i : nat) :
  Js.findIndex p l = Z.of_nat i →
  ∃ x, l !! i = Some x ∧ p x = true ∧ ∀ y, y ∈ take i l → p y = false.
Proof.
  revert i. induction l as [|x l IH]; intros i; simpl; [lia|].
  destruct (p x) eqn:Hx.
  - intros Hi. assert (i = 0%nat) as -> by lia.
    exists x. split_and!; [done..|]. simpl. by intros y ?%elem_of_nil.
  - destruct (Z.eqb_spec (Js.findIndex p l) (-1)); [lia|].
    intros Hi. destruct i as [|i]; [destruct (findIndex_bounds p l); lia|].
    destruct (IH i) as (y & Hy & Hpy & Hbefore); [lia|].
    exists y. split_and!; [done..|].
    simpl. intros z [->|Hz]%elem_of_cons; auto.
Qed.

Lemma splice_from_index {A} (i : nat) (l : list A) :
  (i ≤ length l)%nat → Js.splice_from (Z.of_nat i) l = take i l.
Proof.
  intros Hi. unfold Js.splice_from.
  destruct (Z.ltb_spec (Z.of_nat i) 0); [lia|].
  by rewrite Z.min_l, Nat2Z.id by lia.
Qed.

Lemma pretty_N_go_non_empty (x : N) (s : string) :
  s ≠ EmptyString → pretty_N_go x s ≠ EmptyString.
Proof.
  revert s. induction (N.lt_wf_0 x) as [x _ IH]; intros s Hs.
  destruct (decide (x = 0%N)) as [->|Hx]; [by rewrite pretty_N_go_0|].
  rewrite pretty_N_go_step by lia.
  apply IH; [apply N.div_lt; lia|done].
Qed.

Lemma pretty_N_non_empty (x : N) : pretty x ≠ EmptyString.
Proof.
  unfold pretty, pretty_N. case_decide; [done|].
  rewrite pretty_N_go_step by lia. by apply pretty_N_go_non_empty.
Qed.

(** [String(n)] is never the empty string. *)
Lemma String_non_empty (n : Z) : Js.String_ n ≠ EmptyString.
Proof.
  unfold Js.String_, pretty, pretty_Z. destruct n as [|p|p]; [done|..].
  - apply pretty_N_non_empty.
  - done.
Qed.

(** ** Identity resolution *)

Lemma from_fields (uid sid : option string) (ty : option WebsocketClientType) :
  userId (ClientMetadata.from uid sid ty) = uid ∧
  sessionId (ClientMetadata.from uid sid ty) = sid ∧
  type (ClientMetadata.from uid sid ty) = ty.
Proof. unfold ClientMetadata.from. by repeat case_match. Qed.

Lemma from_anonymous type :
  ClientMetadata.from None None type =
  {| id := "anonymous"; authLevel := anonymous; sessionId := None;
     userId := None; type := type |}.
Proof. reflexivity. Qed.

Lemma fromRequest_anonymous (req : Request) :
  req_user req = None → req_session req = None →
  id (ClientMetadata.fromRequest req) = "anonymous" ∧
  authLevel (ClientMetadata.fromRequest req) = anonymous.
Proof.
  intros Hu Hs. unfold ClientMetadata.fromRequest. by rewrite Hu, Hs.
Qed.

(** C6, as stated, fails: a user id that is present but empty is passed
    over, and the connection resolves through its session or as anonymous. *)
Lemma from_empty_user_id_not_by_presence :
  (id (ClientMetadata.from (Some EmptyString) None None),
   authLevel (ClientMetadata.from (Some EmptyString) None None)) = ("anonymous", anonymous) ∧
  (id (ClientMetadata.from (Some EmptyString) None None),
   authLevel (ClientMetadata.from (Some EmptyString) None None))
    ≠ resolution_by_presence (Some EmptyString) None.
Proof. split; [reflexivity|discriminate]. Qed.

(** C6, amended: identity resolution is a total function of the user id and
    the session id in which an empty string counts as absent. A non-empty
    user id gives that id at level [user]; otherwise a non-empty session id
    gives ["session-" + sessionId] at level [session]; otherwise the result
    is ["anonymous"] at level [anonymous]. The ids and the client type are
    carried over unchanged. *)
Theorem from_resolution (uid sid : option string)
    (ty : option WebsocketClientType) :
  (id (ClientMetadata.from uid sid ty), authLevel (ClientMetadata.from uid sid ty))
    = resolution_by_presence (non_empty uid) (non_empty sid) ∧
  userId (ClientMetadata.from uid sid ty) = uid ∧
  sessionId (ClientMetadata.from uid sid ty) = sid ∧
  type (ClientMetadata.from uid sid ty) = ty.
Proof.
  split; [|apply from_fields].
  unfold ClientMetadata.from, non_empty, resolution_by_presence.
  destruct uid as [u|], sid as [s|]; simpl;
    repeat case_bool_decide; simpl; congruence.
Qed.

(** ** Endpoints of a client context *)

Lemma removeEndpoint_metadata server ctx :
  clientMetadata (WebsocketClientContext.removeEndpoint server ctx) =
  clientMetadata ctx.
Proof.
  unfold WebsocketClientContext.removeEndpoint. by case_bool_decide.
Qed.

(** Removing the endpoint found at index [i] also removes every endpoint
    registered after it. *)
Lemma removeEndpoint_found server ctx (i : nat) :
  Js.findIndex (λ s, bool_decide (uuid s = uuid server)) (servers ctx) = Z.of_nat i →
  servers (WebsocketClientContext.removeEndpoint server ctx) = take i (servers ctx).
Proof.
  intros Hi. unfold WebsocketClientContext.removeEndpoint. rewrite Hi.
  rewrite bool_decide_true by lia. simpl.
  apply splice_from_index.
  pose proof (findIndex_bounds (λ s, bool_decide (uuid s = uuid server)) (servers ctx)).
  lia.
Qed.

(** C9: removing a server whose uuid matches no endpoint of the context
    leaves the context, and so its list of endpoints, as it was. *)
Theorem removeEndpoint_unknown_server server ctx :
  (∀ s, s ∈ servers ctx → uuid s ≠ uuid server) →
  WebsocketClientContext.removeEndpoint server ctx = ctx.
Proof.
  intros Hnone. unfold WebsocketClientContext.removeEndpoint.
  rewrite findIndex_no_match; [done|].
  intros s Hs. apply bool_decide_eq_false. by apply Hnone.
Qed.

Lemma removeEndpoint_unknown_server_witness :
  WebsocketClientContext.removeEndpoint server_C
    {| clientMetadata := ClientMetadata.from (Some "u1") None None;
       servers := [server_A; server_B] |} =
  {| clientMetadata := ClientMetadata.from (Some "u1") None None;
     servers := [server_A; server_B] |}.
Proof.
  apply removeEndpoint_unknown_server. simpl.
  intros s Hs. apply list_elem_of_In in Hs. simpl in Hs.
  destruct Hs as [<-|[<-|[]]]; discriminate.
Defined.

(** ** The registry *)

Import WebsocketConnectionManager.

Lemma getOrCreateClientContext_registers req m :
  contexts (getOrCreateClientContext req m).2
    !! id (ClientMetadata.fromRequest req)
  = Some (getOrCreateClientContext req m).1.
Proof.
  unfold getOrCreateClientContext.
  destruct (contexts m !! id (ClientMetadata.fromRequest req)) eqn:Hctx; simpl;
    [done|apply lookup_insert_eq].
Qed.

Lemma getOrCreateClientContext_existing req m ctx :
  contexts m !! id (ClientMetadata.fromRequest req) = Some ctx →
  getOrCreateClientContext req m = (ctx, m).
Proof. intros Hctx. unfold getOrCreateClientContext. by rewrite Hctx. Qed.

Lemma createProxyTarget_context req server m :
  closing_ctx (createProxyTarget req server m).1 =
    (getOrCreateClientContext req m).1 ∧
  contexts (createProxyTarget req server m).2 =
    contexts (getOrCreateClientContext req m).2.
Proof.
  unfold createProxyTarget. by destruct (getOrCreateClientContext req m).
Qed.

Lemma createProxyTarget_registers req server m :
  contexts (createProxyTarget req server m).2
    !! id (ClientMetadata.fromRequest req)
  = Some (closing_ctx (createProxyTarget req server m).1).
Proof.
  destruct (createProxyTarget_context req server m) as [-> ->].
  apply getOrCreateClientContext_registers.
Qed.

(** A second connection that resolves to the same id joins the context of
    the first: no other context is made or entered in the registry. *)
Lemma createProxyTarget_joins req1 server1 req2 server2 m :
  id (ClientMetadata.fromRequest req1) = id (ClientMetadata.fromRequest req2) →
  closing_ctx
    (createProxyTarget req2 server2 (createProxyTarget req1 server1 m).2).1
  = closing_ctx (createProxyTarget req1 server1 m).1 ∧
  contexts (createProxyTarget req2 server2 (createProxyTarget req1 server1 m).2).2
  = contexts (createProxyTarget req1 server1 m).2.
Proof.
  intros Hid.
  pose proof (createProxyTarget_registers req1 server1 m) as Hreg.
  rewrite Hid in Hreg.
  destruct (createProxyTarget_context req2 server2
              (createProxyTarget req1 server1 m).2) as [-> ->].
  by rewrite (getOrCreateClientContext_existing _ _ _ Hreg).
Qed.

(** C1, on the code: after [u1] opens A and then B the registry holds one
    context for [u1] that lists both endpoints. Closing A empties the list
    of that context, B included, so the context leaves the registry and the
    closing of the context is announced while B is still open; closing B
    announces it a second time. *)
Theorem two_connections_close_first :
  contexts (manager (run two_open)) !! "u1" = Some 0%nat ∧
  servers <$> store (manager (run two_open)) !! 0%nat
    = Some [server_A; server_B] ∧
  servers <$> store (manager (run first_closed)) !! 0%nat = Some [] ∧
  contexts (manager (run first_closed)) !! "u1" = None ∧
  count_event (EVENT_CLIENT_CONTEXT_CLOSED 0%nat) (manager (run first_closed))
    = 1%nat ∧
  open_endpoints "u1" (run first_closed) = [server_B] ∧
  count_event (EVENT_CLIENT_CONTEXT_CLOSED 0%nat) (manager (run both_closed))
    = 2%nat.
Proof. by vm_compute. Qed.

(** C7, on the code: with a third connection opened after A was closed and
    before B is, closing B takes the new context out of the registry while
    its endpoint C is registered and open; a fourth connection then gets a
    context of its own, and two contexts of [u1] list an endpoint. *)
Theorem registry_drops_context_in_use :
  contexts (manager (run reopened)) !! "u1" = None ∧
  open_endpoints "u1" (run reopened) = [server_C] ∧
  servers <$> live_contexts "u1" (run reopened) = [[server_C]] ∧
  contexts (manager (run reopened_twice)) !! "u1" = Some 2%nat ∧
  servers <$> live_contexts "u1" (run reopened_twice)
    = [[server_C]; [server_D]].
Proof. by vm_compute. Qed.

(** A connection with neither a user nor a session resolves to the id
    ["anonymous"], whatever its user agent. Of two such connections opened
    one right after the other, the second is served by the context of the
    first, and their rate limiters are the same: both consume under the key
    ["anonymous"]. *)
Lemma anonymous_connections_join
    (UserRateLimiter_consume : string → string → option Thrown)
    (req1 req2 : Request) (server1 server2 : GitpodServerImpl)
    (m : WebsocketConnectionManager) :
  req_user req1 = None → req_session req1 = None →
  req_user req2 = None → req_session req2 = None →
  id (ClientMetadata.fromRequest req1) = "anonymous" ∧
  id (ClientMetadata.fromRequest req2) = "anonymous" ∧
  closing_ctx
    (createProxyTarget req2 server2 (createProxyTarget req1 server1 m).2).1
  = closing_ctx (createProxyTarget req1 server1 m).1 ∧
  contexts (createProxyTarget req2 server2 (createProxyTarget req1 server1 m).2).2
    !! "anonymous"
  = Some (closing_ctx (createProxyTarget req1 server1 m).1) ∧
  connectionRateLimiter UserRateLimiter_consume req1
  = connectionRateLimiter UserRateLimiter_consume req2 ∧
  rl_user (connectionRateLimiter UserRateLimiter_consume req1) = "anonymous" ∧
  ∀ method,
    consume (connectionRateLimiter UserRateLimiter_consume req1) method
    = UserRateLimiter_consume "anonymous" method.
Proof.
  intros Hu1 Hs1 Hu2 Hs2.
  destruct (fromRequest_anonymous req1 Hu1 Hs1) as [Hid1 _].
  destruct (fromRequest_anonymous req2 Hu2 Hs2) as [Hid2 _].
  assert (id (ClientMetadata.fromRequest req1) = id (ClientMetadata.fromRequest req2))
    as Hid by congruence.
  destruct (createProxyTarget_joins req1 server1 req2 server2 m Hid) as [Hctx Hreg].
  split_and!; try done.
  - rewrite Hreg, <-Hid1. apply createProxyTarget_registers.
  - unfold connectionRateLimiter. by rewrite Hid1, Hid2.
  - intros method. unfold connectionRateLimiter. by rewrite Hid1.
Qed.

(** C10, on the code: connections with neither a user nor a session
    resolve to the one id ["anonymous"] whatever the client, and their rate
    limiters are equal, consuming under that one key. They do not all share
    one context, though: when the browser connection is closed, the context
    loses the endpoint of the VS Code connection as well and leaves the
    registry, so the connection of the Go client gets a context of its own.
    Two anonymous connections are then open on two context objects, and the
    registry holds only the second. *)
Theorem anonymous_connections_split
    (UserRateLimiter_consume : string → string → option Thrown) :
  id (ClientMetadata.fromRequest anon_browser) = "anonymous" ∧
  id (ClientMetadata.fromRequest anon_vs_code) = "anonymous" ∧
  id (ClientMetadata.fromRequest anon_go) = "anonymous" ∧
  connectionRateLimiter UserRateLimiter_consume anon_vs_code
    = connectionRateLimiter UserRateLimiter_consume anon_go ∧
  rl_user (connectionRateLimiter UserRateLimiter_consume anon_go) = "anonymous" ∧
  connections (run anonymous_three) !! 1%nat
    = Some ({| closing_server := server_B; closing_req := anon_vs_code;
               closing_ctx := 0%nat |}, true) ∧
  connections (run anonymous_three) !! 2%nat
    = Some ({| closing_server := server_C; closing_req := anon_go;
               closing_ctx := 1%nat |}, true) ∧
  open_endpoints "anonymous" (run anonymous_three) = [server_B; server_C] ∧
  contexts (manager (run anonymous_three)) !! "anonymous" = Some 1%nat ∧
  servers <$> store (manager (run anonymous_three)) !! 0%nat = Some [] ∧
  servers <$> store (manager (run anonymous_three)) !! 1%nat = Some [server_C].
Proof. split_and!; by vm_compute. Qed.

(** ** The interceptor *)

Section InterceptorProperties.

Context {Value : Type}.
Variable ErrorCodes : ErrorCodesT.
Implicit Types (this : GitpodJsonRpcProxyFactory Value) (method : string)
  (args : list Value).

(** Runs [onRequest] on every way its collaborators can answer. *)
Ltac onRequest_cases this method args :=
  unfold onRequest, await_consume, await_target, calls, outcome;
  destruct (Js.startsWith (rl_user (rateLimiter this)) "session-");
  destruct (consume (rateLimiter this) method) as [[?|?|?]|] eqn:Hconsume;
  destruct (canAccess (accessGuard this) method) eqn:HcanAccess;
  destruct (has_session (target this));
  destruct (methods (target this) method) as [handler|] eqn:Hmethod;
  try destruct (handler args) as [?|[?|?|?]] eqn:Hhandler;
  cbn.

(** Proves [c ∉ l] for a call [c] that differs from every call of [l]. *)
Ltac not_called :=
  let Hin := fresh "Hin" in
  intros Hin; apply list_elem_of_In in Hin; simpl in Hin;
  repeat (destruct Hin as [Hin|Hin]; [discriminate Hin|]); exact Hin.

(** C8: whatever the outcome of a call, its span is opened once and
    closed once, and closing it is the last thing the call does. The
    statement ranges over every answer of the rate limiter, the guard and
    the backend method: success, [ResponseError]s and other faults. *)
Theorem onRequest_span_closed this method args :
  List.filter is_span_call (calls (onRequest ErrorCodes this method args))
    = [ChildContext method; SpanFinish method] ∧
  last (calls (onRequest ErrorCodes this method args))
    = Some (SpanFinish method).
Proof. onRequest_cases this method args; done. Qed.

(** C3: when the rate limiter rejects a call over the quota, neither the
    access guard nor any backend method is called, and the call is
    rejected with a [ResponseError] of code [TOO_MANY_REQUESTS]. *)
Theorem onRequest_rate_limited this method args msBeforeNext :
  consume (rateLimiter this) method = Some (ThrownRateLimiterRes msBeforeNext) →
  (∀ m a, Invoke m a ∉ calls (onRequest ErrorCodes this method args)) ∧
  (∀ m b, CanAccess m b ∉ calls (onRequest ErrorCodes this method args)) ∧
  outcome (onRequest ErrorCodes this method args)
    = Rejected (ThrownResponseError
                  (too_many_requests ErrorCodes (retry_after msBeforeNext))).
Proof.
  intros Hrl. onRequest_cases this method args; simplify_eq;
    (split_and!; [intros m a; not_called|intros m b; not_called|done]).
Qed.

(** Proves [c ∈ l] for a call [c] that is in the list [l]. *)
Ltac called :=
  apply list_elem_of_In; simpl;
  repeat first [left; reflexivity | right].

(** C5: when the access guard says no, no backend method is called; when
    the guard was asked about the method and said no, the call is rejected
    with a [ResponseError] of code [PERMISSION_DENIED] whose message names
    the method; and when the rate limiter and the guard let the call
    through and the backend method returns a value, the call resolves with
    that very value. *)
Theorem onRequest_access_guard this method args :
  (canAccess (accessGuard this) method = false →
   ∀ m a, Invoke m a ∉ calls (onRequest ErrorCodes this method args)) ∧
  (CanAccess method false ∈ calls (onRequest ErrorCodes this method args) →
   (∀ m a, Invoke m a ∉ calls (onRequest ErrorCodes this method args)) ∧
   outcome (onRequest ErrorCodes this method args)
     = Rejected (ThrownResponseError (permission_denied ErrorCodes method))) ∧
  (∀ f v,
     consume (rateLimiter this) method = None →
     canAccess (accessGuard this) method = true →
     methods (target this) method = Some f →
     f args = Resolved v →
     outcome (onRequest ErrorCodes this method args) = Resolved v).
Proof.
  split_and!.
  - intros Hguard. onRequest_cases this method args; simplify_eq;
      intros m a; not_called.
  - onRequest_cases this method args;
      first [ intros Hasked; exfalso; revert Hasked; not_called
            | intros _; split; [intros m a; not_called | reflexivity] ].
  - intros f v Hrl Hguard Hf Hv.
    onRequest_cases this method args; simplify_eq; congruence.
Qed.

(** C2, amended: an unexpected fault of a call is caught at the boundary
    of the interceptor, where it is counted as a call of status 500, put on
    the span as the generic internal server error, and logged with the
    original cause; it is then thrown again, so the call is rejected with
    the original fault itself. *)
Theorem onRequest_unexpected_fault this method args fault :
  unexpected_fault this method args fault →
  outcome (onRequest ErrorCodes this method args) = Rejected fault ∧
  IncreaseApiCallCounter method 500
    ∈ calls (onRequest ErrorCodes this method args) ∧
  SetJsonRPCError method internal_server_error
    ∈ calls (onRequest ErrorCodes this method args) ∧
  LogError (userId (factoryMetadata this))
      ("Request " +:+ method +:+ " failed with internal server error") fault
    ∈ calls (onRequest ErrorCodes this method args).
Proof.
  intros [Hclass [[Hrl Herror]|(Hrl & Hguard & f & Hf & Hthrows)]];
    onRequest_cases this method args; simplify_eq;
    try (rewrite Hthrows in Hhandler; simplify_eq);
    try discriminate Hclass; try discriminate Herror;
    (split_and!; [reflexivity | called..]).
Qed.

End InterceptorProperties.

(** C2, as stated, fails: a fault thrown by the backend method, and an
    [Error] the rate limiter rejects with, come out of [onRequest] as they
    went in, and not as a [ResponseError] of any code. *)
Lemma onRequest_rethrows_fault :
  outcome (onRequest gitpod_codes
             (sample_factory None true
                (Some (λ _, Rejected (ThrownError "connect ECONNREFUSED db:5432"))))
             "getWorkspace" [])
    = Rejected (ThrownError "connect ECONNREFUSED db:5432") ∧
  outcome (onRequest gitpod_codes
             (sample_factory None true
                (Some (λ _, Rejected (ThrownError "connect ECONNREFUSED db:5432"))))
             "getWorkspace" [])
    ≠ Rejected (ThrownResponseError internal_server_error) ∧
  outcome (onRequest gitpod_codes
             (sample_factory (Some (ThrownError "redis is down")) true None)
             "getWorkspace" [])
    = Rejected (ThrownError "redis is down").
Proof. split_and!; [reflexivity|discriminate|reflexivity]. Qed.

Lemma onRequest_unexpected_fault_witness :
  outcome (onRequest gitpod_codes
             (sample_factory None true (Some (λ _, Rejected (ThrownError "boom"))))
             "getWorkspace" [1%nat])
    = Rejected (ThrownError "boom") ∧
  IncreaseApiCallCounter "getWorkspace" 500
    ∈ calls (onRequest gitpod_codes
               (sample_factory None true (Some (λ _, Rejected (ThrownError "boom"))))
               "getWorkspace" [1%nat]).
Proof.
  refine (let H := onRequest_unexpected_fault gitpod_codes
            (sample_factory None true (Some (λ _, Rejected (ThrownError "boom"))))
            "getWorkspace" [1%nat] (ThrownError "boom") _ in
          conj (proj1 H) (proj1 (proj2 H))).
  split; [reflexivity|]. right. split_and!; [reflexivity..|].
  eexists. split; reflexivity.
Defined.

Lemma onRequest_rate_limited_witness :
  outcome (onRequest gitpod_codes
             (sample_factory (Some (ThrownRateLimiterRes 2500)) true
                (Some (λ a, Resolved (length a))))
             "getWorkspace" [1%nat])
    = Rejected (ThrownResponseError
                  {| code := 429; message := "too many requests";
                     data := Some (Js.VString "3") |}).
Proof.
  apply (onRequest_rate_limited gitpod_codes
           (sample_factory (Some (ThrownRateLimiterRes 2500)) true
              (Some (λ a, Resolved (length a))))
           "getWorkspace" [1%nat] 2500).
  reflexivity.
Defined.

Lemma onRequest_access_guard_witness :
  outcome (onRequest gitpod_codes
             (sample_factory None false (Some (λ a, Resolved (length a))))
             "deleteWorkspace" [7%nat])
    = Rejected (ThrownResponseError
                  {| code := 403;
                     message := "Request deleteWorkspace is not allowed";
                     data := None |}) ∧
  outcome (onRequest gitpod_codes
             (sample_factory None true (Some (λ a, Resolved (length a))))
             "getWorkspace" [7%nat; 8%nat])
    = Resolved 2%nat.
Proof.
  split.
  - apply (onRequest_access_guard gitpod_codes
             (sample_factory None false (Some (λ a, Resolved (length a))))
             "deleteWorkspace" [7%nat]).
    apply list_elem_of_In. vm_compute. tauto.
  - apply (proj2 (proj2 (onRequest_access_guard gitpod_codes
             (sample_factory None true (Some (λ a, Resolved (length a))))
             "getWorkspace" [7%nat; 8%nat])) (λ a, Resolved (length a)));
      reflexivity.
Defined.

(** ** The retry hint *)

(** [Math.round(ms / 1000)] is the nearest number of seconds, a tie going
    up. *)
Lemma round_div_1000_nearest (ms : Z) :
  1000 * Js.round_div_1000 ms - 500 ≤ ms < 1000 * Js.round_div_1000 ms + 500.
Proof.
  unfold Js.round_div_1000.
  pose proof (Z.div_mod (ms + 500) 1000).
  pose proof (Z.mod_pos_bound (ms + 500) 1000).
  lia.
Qed.

Lemma round_div_1000_below_half (ms : Z) :
  0 ≤ ms < 500 → Js.round_div_1000 ms = 0.
Proof. unfold Js.round_div_1000. intros. apply Z.div_small. lia. Qed.

(** C4, on the code: the [Retry-After] entry is the string of the rounded
    number of seconds, for every rejection; the fallback to [1] is never
    taken, since the string it guards is never empty. A rejection with less
    than half a second to wait is answered with the hint ["0"]. *)
Theorem retry_after_is_rounded_string :
  (∀ msBeforeNext,
     retry_after msBeforeNext
     = Js.VString (Js.String_ (Js.round_div_1000 msBeforeNext))) ∧
  retry_after 0 = Js.VString "0" ∧
  retry_after 499 = Js.VString "0" ∧
  outcome (onRequest gitpod_codes
             (sample_factory (Some (ThrownRateLimiterRes 0)) true
                (Some (λ a, Resolved (length a))))
             "getWorkspace" [])
    = Rejected (ThrownResponseError
                  {| code := 429; message := "too many requests";
                     data := Some (Js.VString "0") |}).
Proof.
  split_and!; [|reflexivity..].
  intros ms. unfold retry_after, Js.or. simpl.
  rewrite bool_decide_true; [done|apply String_non_empty].
Qed.

(** * Further properties *)

(** ** The client type *)

Lemma prefix_head_eq (a b : Ascii.ascii) (p s : string) :
  String.prefix (String a p) (String b s) = true → a = b.
Proof. simpl. by destruct (Ascii.ascii_dec a b). Qed.

Lemma startsWith_session_prefix (s : string) :
  Js.startsWith ("session-" +:+ s) "session-" = true.
Proof. unfold Js.startsWith. simpl. by destruct s. Qed.

(** X1: the client type is read off the start of the user agent alone: it is
    [go-client], [browser] or [vs-code] exactly when the user agent starts
    with [Go-http-client], [Mozilla] or [VS Code], and undefined exactly
    when there is no user agent or it starts with none of the three. *)
Theorem getClientType_by_prefix (req : Request) :
  (getClientType req = Some go_client ↔
     ∃ ua, req_user_agent req = Some ua ∧ Js.startsWith ua "Go-http-client" = true) ∧
  (getClientType req = Some browser ↔
     ∃ ua, req_user_agent req = Some ua ∧ Js.startsWith ua "Mozilla" = true) ∧
  (getClientType req = Some vs_code ↔
     ∃ ua, req_user_agent req = Some ua ∧ Js.startsWith ua "VS Code" = true) ∧
  (getClientType req = None ↔
     ∀ ua, req_user_agent req = Some ua →
       Js.startsWith ua "Go-http-client" = false ∧
       Js.startsWith ua "Mozilla" = false ∧
       Js.startsWith ua "VS Code" = false).
Proof.
  unfold getClientType, Js.startsWith.
  destruct (req_user_agent req) as [[|c ua]|]; simpl Js.truthy; cbv iota.
  - simpl. split_and!; (split; [discriminate || intros _ ua [= <-]; done|]);
      try (intros (ua & [= <-] & Hua); discriminate Hua); done.
  - cbv [negb].
    destruct (String.prefix "Go-http-client" (String c ua)) eqn:Hgo;
      destruct (String.prefix "Mozilla" (String c ua)) eqn:Hmo;
      destruct (String.prefix "VS Code" (String c ua)) eqn:Hvs;
      try (pose proof (prefix_head_eq _ _ _ _ Hgo));
      try (pose proof (prefix_head_eq _ _ _ _ Hmo));
      try (pose proof (prefix_head_eq _ _ _ _ Hvs));
      try congruence;
      (split_and!;
       (split;
        [ first [ discriminate
                | intros _; eexists; split; [reflexivity|assumption]
                | intros _ ua' [= <-]; by split_and! ]
        | first [ intros (ua' & [= <-] & Hua'); congruence
                | intros Hnone; destruct (Hnone _ eq_refl) as (? & ? & ?);
                  congruence
                | done ] ])).
  - split_and!; (split; [discriminate || by intros _ ua ?|]);
      try (by intros (ua & ? & ?)); done.
Qed.

(** ** Ids across and within the levels *)

(** X2: the ids of the levels are not kept apart: a user whose id is
    ["session-" + s] and a connection that has only the session [s] resolve
    to the same id at different levels, so the second connection is served
    by the context of the first and consumes from the same rate limiter. *)
Theorem session_prefixed_user_id_collides
    (UserRateLimiter_consume : string → string → option Thrown)
    (s : string) (ua1 ua2 : option string) (server1 server2 : GitpodServerImpl)
    (m : WebsocketConnectionManager) :
  s ≠ EmptyString →
  authLevel (ClientMetadata.fromRequest
    {| req_user := Some {| user_id := "session-" +:+ s |};
       req_session := None; req_user_agent := ua1 |}) = user ∧
  authLevel (ClientMetadata.fromRequest
    {| req_user := None; req_session := Some {| session_id := s |};
       req_user_agent := ua2 |}) = session ∧
  closing_ctx
    (createProxyTarget
       {| req_user := None; req_session := Some {| session_id := s |};
          req_user_agent := ua2 |} server2
       (createProxyTarget
          {| req_user := Some {| user_id := "session-" +:+ s |};
             req_session := None; req_user_agent := ua1 |} server1 m).2).1
  = closing_ctx
      (createProxyTarget
         {| req_user := Some {| user_id := "session-" +:+ s |};
            req_session := None; req_user_agent := ua1 |} server1 m).1 ∧
  connectionRateLimiter UserRateLimiter_consume
    {| req_user := Some {| user_id := "session-" +:+ s |};
       req_session := None; req_user_agent := ua1 |}
  = connectionRateLimiter UserRateLimiter_consume
      {| req_user := None; req_session := Some {| session_id := s |};
         req_user_agent := ua2 |}.
Proof.
  intros Hs.
  assert (id (ClientMetadata.fromRequest
            {| req_user := Some {| user_id := "session-" +:+ s |};
               req_session := None; req_user_agent := ua1 |})
          = id (ClientMetadata.fromRequest
            {| req_user := None; req_session := Some {| session_id := s |};
               req_user_agent := ua2 |})) as Hid.
  { unfold ClientMetadata.fromRequest, ClientMetadata.from. simpl.
    by rewrite bool_decide_true. }
  split_and!.
  - reflexivity.
  - unfold ClientMetadata.fromRequest, ClientMetadata.from. simpl.
    by rewrite bool_decide_true.
  - by apply createProxyTarget_joins.
  - unfold connectionRateLimiter. by rewrite Hid.
Qed.

Lemma session_prefixed_user_id_collides_witness :
  connectionRateLimiter (λ _ _, None)
    {| req_user := Some {| user_id := "session-" +:+ "abc" |};
       req_session := None; req_user_agent := None |}
  = connectionRateLimiter (λ _ _, None)
      {| req_user := None; req_session := Some {| session_id := "abc" |};
         req_user_agent := None |}.
Proof.
  apply (session_prefixed_user_id_collides (λ _ _, None) "abc" None None
           server_A server_B WebsocketConnectionManager.new).
  discriminate.
Defined.

(** X3: within a level the id tells the principals apart: two resolutions at
    level [user] with the same id have the same user id, and two at level
    [session] with the same id have the same session id. *)
Theorem from_id_injective_within_level
    (uid sid uid' sid' : option string) (ty ty' : option WebsocketClientType) :
  id (ClientMetadata.from uid sid ty) = id (ClientMetadata.from uid' sid' ty') →
  authLevel (ClientMetadata.from uid sid ty)
    = authLevel (ClientMetadata.from uid' sid' ty') →
  (authLevel (ClientMetadata.from uid sid ty) = user → uid = uid') ∧
  (authLevel (ClientMetadata.from uid sid ty) = session → sid = sid').
Proof.
  unfold ClientMetadata.from.
  destruct uid as [u|], uid' as [u'|], sid as [s|], sid' as [s'|]; simpl;
    repeat case_bool_decide; simpl; intros Hid Hlevel;
    (split; intros Hat); try discriminate; simplify_eq; done.
Qed.

Lemma from_id_injective_within_level_witness :
  sessionId (ClientMetadata.from None (Some "s1") (Some browser))
  = sessionId (ClientMetadata.from None (Some "s1") (Some vs_code)).
Proof.
  apply (from_id_injective_within_level None (Some "s1") None (Some "s1")
           (Some browser) (Some vs_code)); reflexivity.
Defined.

(** ** Endpoints: what removal leaves *)

Lemma findIndex_first_match {A} (p : A → bool) (l1 l2 : list A) (x : A) :
  (∀ y, y ∈ l1 → p y = false) → p x = true →
  Js.findIndex p (l1 ++ x :: l2) = Z.of_nat (length l1).
Proof.
  induction l1 as [|y l1 IH]; intros Hbefore Hx; simpl.
  - by rewrite Hx.
  - rewrite (Hbefore y) by apply list_elem_of_here.
    rewrite IH; [|intros z Hz; apply Hbefore; by apply list_elem_of_further|done].
    destruct (Z.eqb_spec (Z.of_nat (length l1)) (-1)); lia.
Qed.

(** X4: removal cuts the list at the first endpoint with the uuid of the
    server: that endpoint goes, and so does every endpoint registered after
    it. *)
Theorem removeEndpoint_truncates server ctx
    (before after : list GitpodServerImpl) (found : GitpodServerImpl) :
  servers ctx = before ++ found :: after →
  uuid found = uuid server →
  (∀ s, s ∈ before → uuid s ≠ uuid server) →
  servers (WebsocketClientContext.removeEndpoint server ctx) = before.
Proof.
  intros Hservers Hfound Hbefore.
  rewrite (removeEndpoint_found server ctx (length before)).
  - by rewrite Hservers, take_app_length.
  - rewrite Hservers. apply findIndex_first_match.
    + intros s Hs. apply bool_decide_eq_false. by apply Hbefore.
    + by apply bool_decide_eq_true.
Qed.

Lemma removeEndpoint_truncates_witness :
  servers (WebsocketClientContext.removeEndpoint server_B
             {| clientMetadata := ClientMetadata.from (Some "u1") None None;
                servers := [server_A; server_B; server_C; server_D] |})
  = [server_A].
Proof.
  apply (removeEndpoint_truncates server_B _ [server_A] [server_C; server_D] server_B).
  - reflexivity.
  - reflexivity.
  - intros s Hs. apply list_elem_of_In in Hs. simpl in Hs.
    destruct Hs as [<-|[]]. discriminate.
Defined.

Lemma removeEndpoint_no_uuid_left server ctx (s : GitpodServerImpl) :
  s ∈ servers (WebsocketClientContext.removeEndpoint server ctx) →
  uuid s ≠ uuid server.
Proof.
  set (p := λ x : GitpodServerImpl, bool_decide (uuid x = uuid server)).
  destruct (findIndex_bounds p (servers ctx)) as [Hnone|Hsome].
  - unfold WebsocketClientContext.removeEndpoint. fold p. rewrite Hnone. simpl.
    intros Hs Heq.
    assert (∃ i : nat, Js.findIndex p (servers ctx) = Z.of_nat i) as [i Hi].
    { clear Hnone. induction (servers ctx) as [|x l IH]; [by apply elem_of_nil in Hs|].
      simpl. destruct (p x) eqn:Hx; [by exists 0%nat|].
      apply elem_of_cons in Hs as [->|Hs].
      - unfold p in Hx. by rewrite bool_decide_true in Hx.
      - destruct (IH Hs) as [i Hi]. exists (S i). rewrite Hi.
        destruct (Z.eqb_spec (Z.of_nat i) (-1)); lia. }
    lia.
  - assert (Js.findIndex p (servers ctx)
            = Z.of_nat (Z.to_nat (Js.findIndex p (servers ctx)))) as Hi by lia.
    rewrite (removeEndpoint_found server ctx _ Hi).
    destruct (findIndex_match p (servers ctx) _ Hi) as (_ & _ & _ & Hbefore).
    intros Hs Heq. apply Hbefore in Hs. unfold p in Hs.
    by rewrite bool_decide_true in Hs.
Qed.

Lemma removeEndpoint_prefix server ctx :
  servers (WebsocketClientContext.removeEndpoint server ctx)
    `prefix_of` servers ctx.
Proof.
  set (p := λ x : GitpodServerImpl, bool_decide (uuid x = uuid server)).
  destruct (findIndex_bounds p (servers ctx)) as [Hnone|Hsome].
  - unfold WebsocketClientContext.removeEndpoint. fold p. by rewrite Hnone.
  - assert (Js.findIndex p (servers ctx)
            = Z.of_nat (Z.to_nat (Js.findIndex p (servers ctx)))) as Hi by lia.
    rewrite (removeEndpoint_found server ctx _ Hi).
    exists (drop (Z.to_nat (Js.findIndex p (servers ctx))) (servers ctx)).
    by rewrite take_drop.
Qed.

(** X5: a removal never adds or reorders endpoints, and afterwards no endpoint
    with the uuid of the server is listed, however often it had been
    registered: what is left is a prefix of the list, free of that uuid. *)
Theorem removeEndpoint_leaves_prefix_without_uuid server ctx :
  servers (WebsocketClientContext.removeEndpoint server ctx)
    `prefix_of` servers ctx ∧
  clientMetadata (WebsocketClientContext.removeEndpoint server ctx)
    = clientMetadata ctx ∧
  ∀ s, s ∈ servers (WebsocketClientContext.removeEndpoint server ctx) →
       uuid s ≠ uuid server.
Proof.
  split_and!.
  - apply removeEndpoint_prefix.
  - apply removeEndpoint_metadata.
  - apply removeEndpoint_no_uuid_left.
Qed.

(** X6: removing the same server a second time changes nothing. *)
Theorem removeEndpoint_idempotent server ctx :
  WebsocketClientContext.removeEndpoint server
    (WebsocketClientContext.removeEndpoint server ctx)
  = WebsocketClientContext.removeEndpoint server ctx.
Proof.
  unfold WebsocketClientContext.removeEndpoint at 1.
  rewrite findIndex_no_match; [done|].
  intros s Hs. apply bool_decide_eq_false.
  by apply (removeEndpoint_no_uuid_left server ctx).
Qed.

(** X7: registering a server whose uuid is not yet listed and removing it again
    gives the context back. *)
Theorem addEndpoint_removeEndpoint server ctx :
  (∀ s, s ∈ servers ctx → uuid s ≠ uuid server) →
  WebsocketClientContext.removeEndpoint server
    (WebsocketClientContext.addEndpoint server ctx) = ctx.
Proof.
  intros Hfresh.
  assert (servers (WebsocketClientContext.removeEndpoint server
                     (WebsocketClientContext.addEndpoint server ctx))
          = servers ctx) as Hservers.
  { rewrite (removeEndpoint_found server _ (length (servers ctx))).
    - simpl. by rewrite take_app_length.
    - simpl. apply findIndex_first_match.
      + intros s Hs. apply bool_decide_eq_false. by apply Hfresh.
      + by apply bool_decide_eq_true. }
  pose proof (removeEndpoint_metadata server
                (WebsocketClientContext.addEndpoint server ctx)) as Hmeta.
  destruct (WebsocketClientContext.removeEndpoint server
              (WebsocketClientContext.addEndpoint server ctx)).
  destruct ctx. simpl in *. by subst.
Qed.

Lemma addEndpoint_removeEndpoint_witness :
  WebsocketClientContext.removeEndpoint server_B
    (WebsocketClientContext.addEndpoint server_B
       {| clientMetadata := ClientMetadata.from (Some "u1") None None;
          servers := [server_A] |})
  = {| clientMetadata := ClientMetadata.from (Some "u1") None None;
       servers := [server_A] |}.
Proof.
  apply addEndpoint_removeEndpoint. simpl.
  intros s Hs. apply list_elem_of_In in Hs. simpl in Hs.
  destruct Hs as [<-|[]]. discriminate.
Defined.

(** ** The registry over runs *)

Lemma run_snoc (steps : list Step) (s : Step) :
  run (steps ++ [s]) = step (run steps) s.
Proof. unfold run. by rewrite foldl_snoc. Qed.

Lemma step_Open (w : World) req server :
  step w (Open req server) =
  {| manager := (createProxyTarget req server (manager w)).2;
     connections :=
       connections w ++ [((createProxyTarget req server (manager w)).1, true)] |}.
Proof. simpl. by destruct (createProxyTarget req server (manager w)). Qed.

Lemma createProxyTarget_existing req server m (c : ctxref) :
  contexts m !! id (ClientMetadata.fromRequest req) = Some c →
  createProxyTarget req server m =
  ({| closing_server := server; closing_req := req; closing_ctx := c |},
   {| store := alter (WebsocketClientContext.addEndpoint server) c (store m);
      contexts := contexts m;
      events := events m ++ [EVENT_CONNECTION_CREATED server req] |}).
Proof.
  intros Hc. unfold createProxyTarget.
  by rewrite (getOrCreateClientContext_existing _ _ _ Hc).
Qed.

Lemma createProxyTarget_fresh req server m :
  contexts m !! id (ClientMetadata.fromRequest req) = None →
  createProxyTarget req server m =
  ({| closing_server := server; closing_req := req;
      closing_ctx := length (store m) |},
   {| store := store m ++ [ {| clientMetadata := ClientMetadata.fromRequest req;
                               servers := [server] |} ];
      contexts :=
        <[id (ClientMetadata.fromRequest req) := length (store m)]> (contexts m);
      events := events m ++ [EVENT_CLIENT_CONTEXT_CREATED (length (store m));
                             EVENT_CONNECTION_CREATED server req] |}).
Proof.
  intros Hc. unfold createProxyTarget, getOrCreateClientContext.
  rewrite Hc. unfold emit. simpl.
  rewrite alter_app_r_alt by lia. rewrite Nat.sub_diag. simpl.
  by rewrite <-app_assoc.
Qed.

Lemma onDidCloseConnection_store h m :
  store (onDidCloseConnection h m) =
  alter (WebsocketClientContext.removeEndpoint (closing_server h))
    (closing_ctx h) (store m).
Proof.
  unfold onDidCloseConnection. simpl.
  destruct (alter _ _ _ !! _) as [ctx|]; [|done].
  by destruct (WebsocketClientContext.hasNoEndpointsLeft ctx).
Qed.

Lemma onDidCloseConnection_contexts h m k (c : ctxref) :
  contexts (onDidCloseConnection h m) !! k = Some c → contexts m !! k = Some c.
Proof.
  unfold onDidCloseConnection. simpl.
  destruct (alter _ _ _ !! _) as [ctx|]; [|done].
  destruct (WebsocketClientContext.hasNoEndpointsLeft ctx); [|done].
  simpl. by intros [_ ?]%lookup_delete_Some.
Qed.

(** Updating a context object in place keeps the client id of every
    object, when the update does. *)
Lemma alter_keeps_clientId (f : WebsocketClientContext → WebsocketClientContext)
    (l : list WebsocketClientContext) (i j : nat) ctx :
  (∀ x, WebsocketClientContext.clientId (f x) = WebsocketClientContext.clientId x) →
  l !! j = Some ctx →
  ∃ ctx', alter f i l !! j = Some ctx' ∧
    WebsocketClientContext.clientId ctx' = WebsocketClientContext.clientId ctx.
Proof.
  intros Hf Hj. rewrite list_lookup_alter. case_decide as Hij.
  - subst. rewrite Hj. simpl. eauto.
  - eauto.
Qed.

Lemma addEndpoint_clientId server ctx :
  WebsocketClientContext.clientId (WebsocketClientContext.addEndpoint server ctx)
  = WebsocketClientContext.clientId ctx.
Proof. done. Qed.

Lemma removeEndpoint_clientId server ctx :
  WebsocketClientContext.clientId (WebsocketClientContext.removeEndpoint server ctx)
  = WebsocketClientContext.clientId ctx.
Proof.
  unfold WebsocketClientContext.clientId. by rewrite removeEndpoint_metadata.
Qed.

Lemma step_world_wf (w : World) (s : Step) : world_wf w → world_wf (step w s).
Proof.
  intros [Hreg Hhandlers]. destruct s as [req server|conn].
  - rewrite step_Open.
    destruct (contexts (manager w) !! id (ClientMetadata.fromRequest req))
      as [c|] eqn:Hc.
    + rewrite (createProxyTarget_existing _ _ _ _ Hc). split.
      * intros k c' Hk. simpl in *.
        destruct (Hreg k c' Hk) as (ctx & Hctx & Hid).
        destruct (alter_keeps_clientId _ _ c _ _ (addEndpoint_clientId server) Hctx)
          as (ctx' & ? & ?).
        exists ctx'. split; [done|congruence].
      * intros i h b Hi. simpl in *.
        apply lookup_snoc_Some in Hi as [[_ Hi]|[_ [= <- <-]]].
        -- destruct (Hhandlers i h b Hi) as (ctx & Hctx & Hid).
           destruct (alter_keeps_clientId _ _ c _ _ (addEndpoint_clientId server) Hctx)
             as (ctx' & ? & ?).
           exists ctx'. split; [done|congruence].
        -- simpl. destruct (Hreg _ _ Hc) as (ctx & Hctx & Hid).
           destruct (alter_keeps_clientId _ _ c _ _ (addEndpoint_clientId server) Hctx)
             as (ctx' & ? & ?).
           exists ctx'. split; [done|congruence].
    + rewrite (createProxyTarget_fresh _ _ _ Hc). split.
      * intros k c' Hk. simpl in *.
        apply lookup_insert_Some in Hk as [[<- <-]|[_ Hk]].
        -- eexists. split; [apply list_lookup_middle; done|done].
        -- destruct (Hreg k c' Hk) as (ctx & Hctx & Hid).
           exists ctx. split; [by apply lookup_app_l_Some|done].
      * intros i h b Hi. simpl in *.
        apply lookup_snoc_Some in Hi as [[_ Hi]|[_ [= <- <-]]].
        -- destruct (Hhandlers i h b Hi) as (ctx & Hctx & Hid).
           exists ctx. split; [by apply lookup_app_l_Some|done].
        -- simpl. eexists. split; [apply list_lookup_middle; done|done].
  - simpl. destruct (connections w !! conn) as [[h [|]]|] eqn:Hconn;
      [|by split..].
    split.
    + intros k c Hk. simpl in *.
      apply onDidCloseConnection_contexts in Hk.
      destruct (Hreg k c Hk) as (ctx & Hctx & Hid).
      rewrite onDidCloseConnection_store.
      destruct (alter_keeps_clientId _ _ (closing_ctx h) _ _
                  (removeEndpoint_clientId (closing_server h)) Hctx)
        as (ctx' & ? & ?).
      exists ctx'. split; [done|congruence].
    + intros i h' b Hi. simpl in *.
      assert (∃ b', connections w !! i = Some (h', b')) as [b' Hi'].
      { apply list_lookup_insert_Some in Hi as [(<- & [= <- <-] & _)|[_ Hi]]; eauto. }
      destruct (Hhandlers i h' b' Hi') as (ctx & Hctx & Hid).
      rewrite onDidCloseConnection_store.
      destruct (alter_keeps_clientId _ _ (closing_ctx h) _ _
                  (removeEndpoint_clientId (closing_server h)) Hctx)
        as (ctx' & ? & ?).
      exists ctx'. split; [done|congruence].
Qed.

Lemma run_wf (steps : list Step) : world_wf (run steps).
Proof.
  induction steps as [|s steps IH] using rev_ind.
  - split.
    + intros k c Hk. simpl in Hk. by rewrite lookup_empty in Hk.
    + intros i h b Hi. simpl in Hi. by rewrite lookup_nil in Hi.
  - rewrite run_snoc. by apply step_world_wf.
Qed.

(** X8: whatever connections were opened and closed, and in whatever order,
    every entry of the registry points at a context object that carries the
    id it is registered under, and the context object a close handler holds
    carries the id its request resolves to. *)
Theorem run_registry_consistent (steps : list Step) :
  (∀ k c, contexts (manager (run steps)) !! k = Some c →
     ∃ ctx, store (manager (run steps)) !! c = Some ctx ∧
       id (clientMetadata ctx) = k) ∧
  (∀ i h b, connections (run steps) !! i = Some (h, b) →
     ∃ ctx, store (manager (run steps)) !! closing_ctx h = Some ctx ∧
       id (clientMetadata ctx) = id (ClientMetadata.fromRequest (closing_req h))).
Proof. exact (run_wf steps). Qed.

Lemma run_registry_consistent_witness :
  ∃ ctx, store (manager (run two_open)) !! 0%nat = Some ctx ∧
    id (clientMetadata ctx) = "u1".
Proof.
  apply (proj1 (run_registry_consistent two_open) "u1" 0%nat).
  by vm_compute.
Defined.

(** X9: after any history, a connection that is opened finds itself registered:
    the registry holds a context under the id its request resolves to, the
    close handler of the connection holds that context, and the server of
    the connection is the endpoint listed last. *)
Theorem open_registers_endpoint (steps : list Step) req server :
  ∃ c ctx,
    contexts (manager (run (steps ++ [Open req server])))
      !! id (ClientMetadata.fromRequest req) = Some c ∧
    store (manager (run (steps ++ [Open req server]))) !! c = Some ctx ∧
    id (clientMetadata ctx) = id (ClientMetadata.fromRequest req) ∧
    last (servers ctx) = Some server ∧
    last (connections (run (steps ++ [Open req server])))
      = Some ({| closing_server := server; closing_req := req;
                 closing_ctx := c |}, true).
Proof.
  rewrite run_snoc, step_Open.
  destruct (run_wf steps) as [Hreg _]. revert Hreg.
  generalize (run steps). intros w Hreg.
  destruct (contexts (manager w) !! id (ClientMetadata.fromRequest req))
    as [c|] eqn:Hc.
  - rewrite (createProxyTarget_existing _ _ _ _ Hc). simpl.
    destruct (Hreg _ _ Hc) as (ctx & Hctx & Hid).
    exists c, (WebsocketClientContext.addEndpoint server ctx).
    split_and!; [done| |done|apply last_snoc..].
    unfold ctxref in *. by rewrite list_lookup_alter_eq, Hctx.
  - rewrite (createProxyTarget_fresh _ _ _ Hc). simpl.
    eexists _, _. split_and!; [apply lookup_insert_eq|
      by apply list_lookup_middle|done|done|apply last_snoc].
Qed.

(** ** One connection at a time *)

Lemma removeEndpoint_only server md :
  WebsocketClientContext.removeEndpoint server
    {| clientMetadata := md; servers := [server] |}
  = {| clientMetadata := md; servers := [] |}.
Proof.
  unfold WebsocketClientContext.removeEndpoint. simpl.
  rewrite (bool_decide_true (uuid server = uuid server)) by done.
  reflexivity.
Qed.

(** X10: the first connection of an identity that is not in the registry, closed
    again while it is the only one, leaves the registry as it was; the four
    notifications come once each, in the order context created, connection
    created, connection closed, context closed. *)
Theorem open_close_fresh_identity req server m :
  contexts m !! id (ClientMetadata.fromRequest req) = None →
  contexts (onDidCloseConnection (createProxyTarget req server m).1
              (createProxyTarget req server m).2)
    = contexts m ∧
  events (onDidCloseConnection (createProxyTarget req server m).1
            (createProxyTarget req server m).2)
    = events m ++
      [EVENT_CLIENT_CONTEXT_CREATED (length (store m));
       EVENT_CONNECTION_CREATED server req;
       EVENT_CONNECTION_CLOSED server req;
       EVENT_CLIENT_CONTEXT_CLOSED (length (store m))].
Proof.
  intros Hc. rewrite (createProxyTarget_fresh _ _ _ Hc).
  unfold onDidCloseConnection, emit. simpl.
  rewrite alter_app_r_alt by lia. rewrite Nat.sub_diag. simpl.
  rewrite removeEndpoint_only.
  rewrite list_lookup_middle by done. simpl. split.
  - unfold WebsocketClientContext.clientId. simpl. by apply delete_insert_id.
  - by rewrite <-!app_assoc.
Qed.

Lemma open_close_fresh_identity_witness :
  contexts (onDidCloseConnection
              (createProxyTarget u1 server_A WebsocketConnectionManager.new).1
              (createProxyTarget u1 server_A WebsocketConnectionManager.new).2)
    = contexts WebsocketConnectionManager.new.
Proof.
  apply (open_close_fresh_identity u1 server_A WebsocketConnectionManager.new).
  reflexivity.
Defined.

(** X11: closing the connection whose server was registered last, in a context
    that lists other endpoints with other uuids, removes that endpoint
    alone: the others stay, the registry is untouched, and only the closing
    of the connection is announced. *)
Theorem onDidCloseConnection_last_registered h m ctx
    (others : list GitpodServerImpl) :
  store m !! closing_ctx h = Some ctx →
  servers ctx = others ++ [closing_server h] →
  others ≠ [] →
  (∀ s, s ∈ others → uuid s ≠ uuid (closing_server h)) →
  contexts (onDidCloseConnection h m) = contexts m ∧
  store (onDidCloseConnection h m) !! closing_ctx h
    = Some {| clientMetadata := clientMetadata ctx; servers := others |} ∧
  events (onDidCloseConnection h m)
    = events m ++ [EVENT_CONNECTION_CLOSED (closing_server h) (closing_req h)].
Proof.
  intros Hctx Hservers Hothers Hfresh.
  assert (WebsocketClientContext.removeEndpoint (closing_server h) ctx
          = {| clientMetadata := clientMetadata ctx; servers := others |}) as Hrm.
  { pose proof (removeEndpoint_metadata (closing_server h) ctx) as Hmd.
    assert (servers (WebsocketClientContext.removeEndpoint (closing_server h) ctx)
            = others) as Hs.
    { rewrite (removeEndpoint_found _ ctx (length others)).
      - by rewrite Hservers, take_app_length.
      - rewrite Hservers. apply findIndex_first_match.
        + intros s Hs. apply bool_decide_eq_false. by apply Hfresh.
        + by apply bool_decide_eq_true. }
    destruct (WebsocketClientContext.removeEndpoint (closing_server h) ctx).
    simpl in *. by subst. }
  unfold onDidCloseConnection, emit, ctxref in *. simpl.
  rewrite list_lookup_alter_eq, Hctx. simpl. rewrite Hrm.
  unfold WebsocketClientContext.hasNoEndpointsLeft. simpl.
  rewrite bool_decide_false by (destruct others; simpl; [done|lia]).
  simpl. by rewrite list_lookup_alter_eq, Hctx, <-Hrm.
Qed.

Lemma onDidCloseConnection_last_registered_witness :
  contexts (onDidCloseConnection
              {| closing_server := server_B; closing_req := u1;
                 closing_ctx := 0%nat |}
              (manager (run two_open)))
  = contexts (manager (run two_open)).
Proof.
  apply (onDidCloseConnection_last_registered
           {| closing_server := server_B; closing_req := u1; closing_ctx := 0%nat |}
           (manager (run two_open))
           {| clientMetadata := ClientMetadata.fromRequest u1;
              servers := [server_A; server_B] |}
           [server_A]).
  - reflexivity.
  - reflexivity.
  - discriminate.
  - intros s Hs. apply list_elem_of_In in Hs. simpl in Hs.
    destruct Hs as [<-|[]]. discriminate.
Defined.

(** X12: closing the connection whose server is listed first evicts the context:
    its list is emptied, whatever else it listed, its id leaves the
    registry, and the closing of the connection is announced before the
    closing of the context. *)
Theorem onDidCloseConnection_first_registered h m ctx
    (first : GitpodServerImpl) (others : list GitpodServerImpl) :
  store m !! closing_ctx h = Some ctx →
  servers ctx = first :: others →
  uuid first = uuid (closing_server h) →
  contexts (onDidCloseConnection h m) = delete (id (clientMetadata ctx)) (contexts m) ∧
  store (onDidCloseConnection h m) !! closing_ctx h
    = Some {| clientMetadata := clientMetadata ctx; servers := [] |} ∧
  events (onDidCloseConnection h m)
    = events m ++ [EVENT_CONNECTION_CLOSED (closing_server h) (closing_req h);
                   EVENT_CLIENT_CONTEXT_CLOSED (closing_ctx h)].
Proof.
  intros Hctx Hservers Hfirst.
  assert (WebsocketClientContext.removeEndpoint (closing_server h) ctx
          = {| clientMetadata := clientMetadata ctx; servers := [] |}) as Hrm.
  { unfold WebsocketClientContext.removeEndpoint. rewrite Hservers. simpl.
    rewrite (bool_decide_true (uuid first = uuid (closing_server h))) by done.
    reflexivity. }
  unfold onDidCloseConnection, emit, ctxref in *. simpl.
  rewrite list_lookup_alter_eq, Hctx. simpl. rewrite Hrm. simpl.
  split_and!; [done| |by rewrite <-app_assoc].
  by rewrite list_lookup_alter_eq, Hctx, <-Hrm.
Qed.

Lemma onDidCloseConnection_first_registered_witness :
  events (onDidCloseConnection
            {| closing_server := server_A; closing_req := u1;
               closing_ctx := 0%nat |}
            (manager (run two_open)))
  = events (manager (run two_open)) ++
    [EVENT_CONNECTION_CLOSED server_A u1; EVENT_CLIENT_CONTEXT_CLOSED 0%nat].
Proof.
  apply (onDidCloseConnection_first_registered
           {| closing_server := server_A; closing_req := u1; closing_ctx := 0%nat |}
           (manager (run two_open))
           {| clientMetadata := ClientMetadata.fromRequest u1;
              servers := [server_A; server_B] |}
           server_A [server_B]); reflexivity.
Defined.

(** ** Other identities, and runs without a close *)

Lemma createProxyTarget_frame req server m k :
  k ≠ id (ClientMetadata.fromRequest req) →
  contexts (createProxyTarget req server m).2 !! k = contexts m !! k.
Proof.
  intros Hk.
  destruct (contexts m !! id (ClientMetadata.fromRequest req)) as [c|] eqn:Hc.
  - by rewrite (createProxyTarget_existing _ _ _ _ Hc).
  - rewrite (createProxyTarget_fresh _ _ _ Hc). simpl.
    by rewrite lookup_insert_ne.
Qed.

Lemma onDidCloseConnection_frame h m ctx k :
  store m !! closing_ctx h = Some ctx →
  id (clientMetadata ctx) ≠ k →
  contexts (onDidCloseConnection h m) !! k = contexts m !! k.
Proof.
  intros Hctx Hk. unfold onDidCloseConnection, emit, ctxref in *. simpl.
  rewrite list_lookup_alter_eq, Hctx. simpl.
  destruct (WebsocketClientContext.hasNoEndpointsLeft _); [|done].
  simpl. rewrite lookup_delete_ne; [done|].
  by rewrite removeEndpoint_clientId.
Qed.

(** X13: a step taken for one identity, an open or a close, leaves the registry
    entry of every other identity as it is, after any history. *)
Theorem registry_frame (steps : list Step) (s : Step) (k : string) :
  step_identity (run steps) s ≠ Some k →
  contexts (manager (run (steps ++ [s]))) !! k
    = contexts (manager (run steps)) !! k.
Proof.
  intros Hother. rewrite run_snoc.
  destruct (run_wf steps) as [_ Hhandlers]. revert Hother Hhandlers.
  generalize (run steps). intros w Hother Hhandlers.
  destruct s as [req server|conn].
  - rewrite step_Open. simpl. apply createProxyTarget_frame.
    simpl in Hother. congruence.
  - simpl in *. destruct (connections w !! conn) as [[h [|]]|] eqn:Hconn;
      [|done..].
    simpl in *. destruct (Hhandlers _ _ _ Hconn) as (ctx & Hctx & Hid).
    apply (onDidCloseConnection_frame h _ ctx); [done|].
    unfold WebsocketClientContext.clientId in Hid. congruence.
Qed.

Lemma registry_frame_witness :
  contexts (manager (run (two_open ++ [Close 0%nat]))) !! "u2"
    = contexts (manager (run two_open)) !! "u2".
Proof. apply registry_frame. by vm_compute. Defined.

Lemma open_endpoints_snoc (k : string) (m m' : WebsocketConnectionManager)
    (cs : list (CloseHandler * bool)) (h : CloseHandler) :
  open_endpoints k {| manager := m'; connections := cs ++ [(h, true)] |}
  = open_endpoints k {| manager := m; connections := cs |}
    ++ (if decide (id (ClientMetadata.fromRequest (closing_req h)) = k)
        then [closing_server h] else []).
Proof.
  unfold open_endpoints. simpl.
  rewrite filter_app, !fmap_app. f_equal.
  rewrite filter_cons, filter_nil. simpl.
  case_decide as Hin; case_decide as Hk; try done;
    [by destruct Hin|by exfalso; apply Hin].
Qed.

Lemma step_Open_matches (w : World) req server :
  world_wf w → registry_matches_endpoints w →
  registry_matches_endpoints (step w (Open req server)).
Proof.
  intros [Hreg _] Hmatch k. rewrite step_Open.
  destruct w as [m cs]. simpl in *.
  pose proof (Hmatch k) as Hk. simpl in Hk.
  pose proof (Hreg k) as Hregk.
  destruct (contexts m !! id (ClientMetadata.fromRequest req)) as [c0|] eqn:Hc0.
  - rewrite (createProxyTarget_existing _ _ _ _ Hc0). simpl.
    rewrite (open_endpoints_snoc k m). simpl.
    destruct (Hreg _ _ Hc0) as (ctx0 & Hctx0 & Hid0).
    case_decide as Hid.
    + subst k. rewrite Hc0 in Hk |- *. destruct Hk as (ctx & Hctx & Hs & _).
      unfold ctxref in *.
      exists (WebsocketClientContext.addEndpoint server ctx). split_and!.
      * by rewrite list_lookup_alter_eq, Hctx.
      * simpl. by rewrite Hs.
      * simpl. by destruct (servers ctx).
    + rewrite app_nil_r.
      destruct (contexts m !! k) as [c|]; [|done].
      destruct Hk as (ctx & Hctx & Hs & Hne).
      destruct (Hregk c eq_refl) as (ctx1 & Hctx1 & Hid1).
      unfold ctxref in *.
      exists ctx. split_and!; [|done..].
      rewrite list_lookup_alter_ne; [done|].
      intros ->. congruence.
  - rewrite (createProxyTarget_fresh _ _ _ Hc0). simpl.
    rewrite (open_endpoints_snoc k m). simpl.
    case_decide as Hid.
    + subst k. rewrite Hc0 in Hk. rewrite lookup_insert_eq.
      eexists. split_and!; [by apply list_lookup_middle| |done].
      simpl. by rewrite Hk.
    + rewrite app_nil_r, lookup_insert_ne by done.
      destruct (contexts m !! k) as [c|]; [|done].
      destruct Hk as (ctx & Hctx & Hs & Hne).
      exists ctx. split_and!; [by apply lookup_app_l_Some|done..].
Qed.

(** X14: as long as no connection is closed, the registry and the endpoints
    agree for every identity: the registry holds a context for it exactly
    when it has an open endpoint, and that context lists the open endpoints
    of the identity in the order they were opened. *)
Theorem open_only_registry_matches (steps : list Step) :
  Forall (λ s, is_Open s = true) steps →
  ∀ k,
    match contexts (manager (run steps)) !! k with
    | Some c =>
        ∃ ctx, store (manager (run steps)) !! c = Some ctx ∧
          servers ctx = open_endpoints k (run steps) ∧ servers ctx ≠ []
    | None => open_endpoints k (run steps) = []
    end.
Proof.
  induction steps as [|s steps IH] using rev_ind; intros Hopen.
  - intros k. simpl. by rewrite lookup_empty.
  - apply Forall_app in Hopen as [Hsteps Hs].
    rewrite Forall_singleton in Hs.
    destruct s as [req server|conn]; [|by simpl in Hs].
    rewrite run_snoc.
    apply (step_Open_matches (run steps) req server (run_wf steps) (IH Hsteps)).
Qed.

Lemma open_only_registry_matches_witness :
  ∃ ctx, store (manager (run two_open)) !! 0%nat = Some ctx ∧
    servers ctx = open_endpoints "u1" (run two_open) ∧ servers ctx ≠ [].
Proof.
  apply (open_only_registry_matches two_open
           ltac:(repeat constructor) "u1").
Defined.

(** ** The stages of a call *)

Section InterceptorStages.

Context {Value : Type}.
Variable ErrorCodes : ErrorCodesT.
Implicit Types (this : GitpodJsonRpcProxyFactory Value) (method : string)
  (args : list Value).

(** Runs [onRequest] on every answer of its collaborators, keeping the
    answers as equations. *)
Ltac stage_cases this method args :=
  unfold onRequest, await_consume, await_target, calls, outcome;
  destruct (Js.startsWith (rl_user (rateLimiter this)) "session-");
  destruct (consume (rateLimiter this) method) as [[?|?|?]|] eqn:Hconsume;
  destruct (canAccess (accessGuard this) method) eqn:HcanAccess;
  destruct (has_session (target this));
  destruct (methods (target this) method) as [handler|] eqn:Hmethod;
  try destruct (handler args) as [?|[?|?|?]] eqn:Hhandler;
  cbn.

(** The per-user counter comes first, under the user of the rate limiter,
    or under ["anonymous"] when that user starts with ["session-"]. *)
Lemma onRequest_first_call this method args :
  head (calls (onRequest ErrorCodes this method args))
  = Some (IncreaseApiCallUserCounter method
            (if Js.startsWith (rl_user (rateLimiter this)) "session-"
             then "anonymous" else rl_user (rateLimiter this))).
Proof. stage_cases this method args; reflexivity. Qed.

(** X15: every call consults the rate limiter, once, under the user of the
    limiter and for the method called, after the per-user counter and the
    start of the span and before anything else is decided. *)
Theorem onRequest_consults_rate_limiter_first this method args :
  ∃ label,
    take 6 (calls (onRequest ErrorCodes this method args))
    = [IncreaseApiCallUserCounter method label;
       ChildContext method;
       TraceClientMetadata (factoryMetadata this);
       SetOWI (userId (factoryMetadata this)) (sessionId (factoryMetadata this));
       SetJsonRPCMetadata method;
       Consume (rl_user (rateLimiter this)) method] ∧
    List.filter is_consume (calls (onRequest ErrorCodes this method args))
    = [Consume (rl_user (rateLimiter this)) method].
Proof. stage_cases this method args; eexists; split; reflexivity. Qed.

(** X16: the access guard is asked exactly when the rate limiter lets the call
    through, once, and about the method called. *)
Theorem onRequest_guard_asked_once this method args :
  List.filter is_can_access (calls (onRequest ErrorCodes this method args))
  = match consume (rateLimiter this) method with
    | None => [CanAccess method (canAccess (accessGuard this) method)]
    | Some _ => []
    end.
Proof. stage_cases this method args; reflexivity. Qed.

(** X17: the backend is called exactly when the rate limiter lets the call
    through, the guard allows the method and the server has a method of that
    name; it is then called once, with the method and the arguments of the
    call. *)
Theorem onRequest_dispatches_once this method args :
  List.filter is_invoke (calls (onRequest ErrorCodes this method args))
  = match consume (rateLimiter this) method,
          canAccess (accessGuard this) method,
          methods (target this) method with
    | None, true, Some _ => [Invoke method args]
    | _, _, _ => []
    end.
Proof. stage_cases this method args; reflexivity. Qed.

(** X18: every call is counted once with a status: 200 when it resolves, the
    code of the [ResponseError] when it is rejected with one, and 500 when
    it is rejected with anything else. *)
Theorem onRequest_counts_status_once this method args :
  List.filter is_api_call_counter (calls (onRequest ErrorCodes this method args))
  = [IncreaseApiCallCounter method
       (status_of (outcome (onRequest ErrorCodes this method args)))].
Proof. stage_cases this method args; reflexivity. Qed.

(** X19: a call resolves only with what the backend method returned: the rate
    limiter had let it through, the guard had allowed it, and the method
    exists and returned that value. *)
Theorem onRequest_resolves_only_from_handler this method args (v : Value) :
  outcome (onRequest ErrorCodes this method args) = Resolved v →
  consume (rateLimiter this) method = None ∧
  canAccess (accessGuard this) method = true ∧
  ∃ f, methods (target this) method = Some f ∧ f args = Resolved v.
Proof.
  stage_cases this method args; intros Hout; try discriminate Hout.
  all: injection Hout as ->; split_and!; [done..|]; by eexists.
Qed.

(** X20: a [ResponseError] reaches the caller as it was thrown, whether it comes
    from the backend method or from the rate limiter: the call is rejected
    with that very error, counted under its code, and nothing is put on the
    span as an unexpected error. *)
Theorem onRequest_passes_response_error this method args (e : ResponseError) :
  consume (rateLimiter this) method = Some (ThrownResponseError e) ∨
  (consume (rateLimiter this) method = None ∧
   canAccess (accessGuard this) method = true ∧
   ∃ f, methods (target this) method = Some f ∧
        f args = Rejected (ThrownResponseError e)) →
  outcome (onRequest ErrorCodes this method args)
    = Rejected (ThrownResponseError e) ∧
  List.filter is_api_call_counter (calls (onRequest ErrorCodes this method args))
    = [IncreaseApiCallCounter method (code e)] ∧
  List.filter is_set_error (calls (onRequest ErrorCodes this method args)) = [] ∧
  List.filter is_span_call (calls (onRequest ErrorCodes this method args))
    = [ChildContext method; SpanFinish method].
Proof.
  intros [Hrl|(Hrl & Hguard & f & Hf & Hthrows)];
    stage_cases this method args; simplify_eq;
    try (rewrite Hthrows in Hhandler; simplify_eq); done.
Qed.

(** X21: a call that the rate limiter rejects or the guard denies never reads a
    property of the target, so it does not touch the session; neither does
    any call on a connection without a session. *)
Theorem onRequest_rejected_call_leaves_session this method args :
  consume (rateLimiter this) method ≠ None ∨
  canAccess (accessGuard this) method = false ∨
  has_session (target this) = false →
  List.filter is_session_touch (calls (onRequest ErrorCodes this method args)) = [].
Proof.
  intros Hwhy. unfold onRequest, await_consume, await_target, calls, outcome.
  destruct (Js.startsWith (rl_user (rateLimiter this)) "session-");
    destruct (consume (rateLimiter this) method) as [[?|?|?]|] eqn:Hconsume;
    destruct (canAccess (accessGuard this) method) eqn:HcanAccess;
    destruct (has_session (target this)) eqn:Hsession;
    destruct (methods (target this) method) as [handler|] eqn:Hmethod;
    try destruct (handler args) as [?|[?|?|?]] eqn:Hhandler;
    cbn; try reflexivity; by destruct Hwhy as [?|[?|?]].
Qed.

End InterceptorStages.

Lemma onRequest_resolves_only_from_handler_witness :
  consume (rateLimiter (sample_factory None true (Some (λ a, Resolved (length a)))))
    "getWorkspace" = None.
Proof.
  apply (onRequest_resolves_only_from_handler gitpod_codes
           (sample_factory None true (Some (λ a, Resolved (length a))))
           "getWorkspace" [4%nat] 1%nat).
  reflexivity.
Defined.

Lemma onRequest_passes_response_error_witness :
  outcome (onRequest gitpod_codes
             (sample_factory None true
                (Some (λ _, Rejected (ThrownResponseError
                   {| code := 404; message := "not found"; data := None |}))))
             "getWorkspace" [])
  = Rejected (ThrownResponseError
                {| code := 404; message := "not found"; data := None |}).
Proof.
  apply (onRequest_passes_response_error gitpod_codes
           (sample_factory None true
              (Some (λ _, Rejected (ThrownResponseError
                 {| code := 404; message := "not found"; data := None |}))))
           "getWorkspace" []).
  right. split_and!; [reflexivity..|]. eexists. split; reflexivity.
Defined.

(** ** The label of the per-user counter *)

Lemma fromRequest_level_id (request : Request) :
  match authLevel (ClientMetadata.fromRequest request) with
  | user => True
  | session =>
      ∃ s, id (ClientMetadata.fromRequest request) = "session-" +:+ s
  | anonymous => id (ClientMetadata.fromRequest request) = "anonymous"
  end.
Proof.
  unfold ClientMetadata.fromRequest, ClientMetadata.from.
  destruct (Js.truthy (user_id <$> req_user request)); simpl; [done|].
  destruct (Js.truthy (session_id <$> req_session request)); simpl; [|done].
  by eexists.
Qed.

(** X22: on a connection wired by [onConnection], a call is counted in the
    per-user counter under ["anonymous"] whenever the connection is not at
    level [user], so a session id is never a label; at level [user] the
    label is the user id, unless that id starts with ["session-"]. The rate
    limiter is consulted under the id of the client. *)
Theorem onConnection_counter_label {Value : Type} (ErrorCodes : ErrorCodesT)
    (UserRateLimiter_consume : string → string → option Thrown)
    (AllAccessFunctionGuard : FunctionAccessGuard) (request : Request)
    (functionGuard : option FunctionAccessGuard)
    (server_methods : string → option (list Value → Settled Value))
    (method : string) (args : list Value) :
  head (calls (onRequest ErrorCodes
                 (onConnection UserRateLimiter_consume AllAccessFunctionGuard
                    request functionGuard server_methods) method args))
  = Some (IncreaseApiCallUserCounter method
            match authLevel (ClientMetadata.fromRequest request) with
            | user =>
                if Js.startsWith (id (ClientMetadata.fromRequest request)) "session-"
                then "anonymous" else id (ClientMetadata.fromRequest request)
            | _ => "anonymous"
            end) ∧
  rl_user (rateLimiter
             (onConnection (Value := Value) UserRateLimiter_consume
                AllAccessFunctionGuard request functionGuard server_methods))
  = id (ClientMetadata.fromRequest request) ∧
  consume (rateLimiter
             (onConnection (Value := Value) UserRateLimiter_consume
                AllAccessFunctionGuard request functionGuard server_methods))
          method
  = UserRateLimiter_consume (id (ClientMetadata.fromRequest request)) method.
Proof.
  split; [|done].
  rewrite onRequest_first_call. simpl.
  pose proof (fromRequest_level_id request) as Hid.
  destruct (authLevel (ClientMetadata.fromRequest request)).
  - done.
  - destruct Hid as [s ->]. by rewrite startsWith_session_prefix.
  - by rewrite Hid.
Qed.

(** ** The retry hint from half a second on *)

(** X23: when the rate limiter reports at least half a second to wait, in
    whole milliseconds below [2^53], the [Retry-After] entry is the decimal
    string of a positive whole number of seconds, the nearest to the time
    reported, and never ["0"]. *)
Theorem retry_after_positive_from_half_second (msBeforeNext : Z) :
  500 ≤ msBeforeNext < MAX_SAFE →
  retry_after msBeforeNext ≠ Js.VString "0" ∧
  ∃ n, 1 ≤ n < MAX_SAFE ∧
    retry_after msBeforeNext = Js.VString (Js.String_ n) ∧
    1000 * n - 500 ≤ msBeforeNext < 1000 * n + 500.
Proof.
  intros [Hms Hsafe].
  assert (retry_after msBeforeNext
          = Js.VString (Js.String_ (Js.round_div_1000 msBeforeNext))) as Hhint.
  { unfold retry_after, Js.or. simpl.
    rewrite bool_decide_true; [done|apply String_non_empty]. }
  pose proof (round_div_1000_nearest msBeforeNext) as Hnear.
  assert (1 ≤ Js.round_div_1000 msBeforeNext) as Hpos by lia.
  split.
  - rewrite Hhint. intros [= Hzero].
    change "0" with (pretty 0) in Hzero. unfold Js.String_ in Hzero.
    apply (inj pretty) in Hzero. lia.
  - exists (Js.round_div_1000 msBeforeNext).
    unfold MAX_SAFE in *. split_and!; [done|lia|done|lia|lia].
Qed.

Lemma retry_after_positive_from_half_second_witness :
  retry_after 2500 ≠ Js.VString "0" ∧
  ∃ n, 1 ≤ n < MAX_SAFE ∧ retry_after 2500 = Js.VString (Js.String_ n) ∧
    1000 * n - 500 ≤ 2500 < 1000 * n + 500.
Proof.
  apply retry_after_positive_from_half_second. unfold MAX_SAFE. lia.
Defined.

Lemma onRequest_rejected_call_leaves_session_witness :
  List.filter is_session_touch
    (calls (onRequest gitpod_codes
              (sample_factory (Some (ThrownRateLimiterRes 1200)) true
                 (Some (λ a, Resolved (length a))))
              "getWorkspace" []))
  = [].
Proof.
  apply onRequest_rejected_call_leaves_session. left. discriminate.
Defined.

(** ** What a server is initialised with *)

Lemma run_app (steps steps' : list Step) :
  run (steps ++ steps') = foldl step (run steps) steps'.
Proof. unfold run. by rewrite foldl_app. Qed.

Lemma run_app_cons (steps steps' : list Step) (s : Step) :
  run (steps ++ s :: steps') = foldl step (step (run steps) s) steps'.
Proof. by rewrite run_app. Qed.

(** A context object keeps its client metadata through every step. *)
Lemma step_keeps_metadata (w : World) (s : Step) (c : nat) ctx :
  store (manager w) !! c = Some ctx →
  ∃ ctx', store (manager (step w s)) !! c = Some ctx' ∧
    clientMetadata ctx' = clientMetadata ctx.
Proof.
  intros Hctx. destruct s as [req server|conn].
  - rewrite step_Open. simpl.
    destruct (contexts (manager w) !! id (ClientMetadata.fromRequest req))
      as [c0|] eqn:Hc0.
    + rewrite (createProxyTarget_existing _ _ _ _ Hc0). simpl.
      rewrite list_lookup_alter. case_decide as Heq.
      * subst. unfold ctxref in *. rewrite Hctx. simpl. eauto.
      * eauto.
    + rewrite (createProxyTarget_fresh _ _ _ Hc0). simpl.
      exists ctx. split; [by apply lookup_app_l_Some|done].
  - simpl. destruct (connections w !! conn) as [[h [|]]|]; [|by eauto..].
    simpl. rewrite onDidCloseConnection_store.
    rewrite list_lookup_alter. case_decide as Heq.
    + subst. unfold ctxref in *. rewrite Hctx. simpl.
      eexists. split; [done|apply removeEndpoint_metadata].
    + eauto.
Qed.

Lemma steps_keep_metadata (steps : list Step) (w : World) (c : nat) ctx :
  store (manager w) !! c = Some ctx →
  ∃ ctx', store (manager (foldl step w steps)) !! c = Some ctx' ∧
    clientMetadata ctx' = clientMetadata ctx.
Proof.
  revert w ctx. induction steps as [|s steps IH]; intros w ctx Hctx; simpl.
  - eauto.
  - destruct (step_keeps_metadata w s c ctx Hctx) as (ctx1 & Hctx1 & Hmd1).
    destruct (IH _ _ Hctx1) as (ctx2 & Hctx2 & Hmd2).
    exists ctx2. split; [done|congruence].
Qed.

(** X24: the client metadata a server is initialised with is that of its
    context, hence that of the connection that made the context. The
    connection that makes the context of an identity is initialised with
    its own metadata; a connection opened at any later point of the run, for
    which the registry holds that same context, is initialised with the
    metadata of the connection that made it, with the client type and the
    session id of that one. *)
Theorem initialize_gets_metadata_of_context_maker
    (steps steps' : list Step) req1 server1 req2 :
  contexts (manager (run steps)) !! id (ClientMetadata.fromRequest req1) = None →
  contexts (manager (run (steps ++ Open req1 server1 :: steps')))
    !! id (ClientMetadata.fromRequest req2)
  = Some (length (store (manager (run steps)))) →
  initialize_clientMetadata req1 (manager (run steps))
    = Some (ClientMetadata.fromRequest req1) ∧
  initialize_clientMetadata req2
      (manager (run (steps ++ Open req1 server1 :: steps')))
    = Some (ClientMetadata.fromRequest req1).
Proof.
  intros Hfresh Hheld. split.
  - unfold initialize_clientMetadata, getOrCreateClientContext.
    rewrite Hfresh. unfold emit. simpl. by rewrite list_lookup_middle.
  - unfold initialize_clientMetadata.
    rewrite (getOrCreateClientContext_existing _ _ _ Hheld).
    clear Hheld. rewrite run_app_cons.
    assert (store (manager (step (run steps) (Open req1 server1)))
              !! length (store (manager (run steps)))
            = Some {| clientMetadata := ClientMetadata.fromRequest req1;
                      servers := [server1] |}) as Hmade.
    { rewrite step_Open. simpl.
      rewrite (createProxyTarget_fresh _ _ _ Hfresh). simpl.
      by apply list_lookup_middle. }
    destruct (steps_keep_metadata steps' _ _ _ Hmade) as (ctx & Hctx & Hmd).
    unfold ctxref in *. rewrite Hctx. simpl in *. by rewrite Hmd.
Qed.

Lemma initialize_gets_metadata_of_context_maker_witness :
  initialize_clientMetadata
    {| req_user := Some {| user_id := "u1" |};
       req_session := Some {| session_id := "s2" |};
       req_user_agent := Some "VS Code 1.60" |}
    (manager (run ([] ++ Open u1 server_A
                      :: [Open anon_go server_B; Open u1 server_C;
                          Close 2%nat; Close 1%nat])))
  = Some {| id := "u1"; authLevel := user; sessionId := None;
            userId := Some "u1"; type := Some browser |}.
Proof.
  apply (initialize_gets_metadata_of_context_maker [] _ u1 server_A
           {| req_user := Some {| user_id := "u1" |};
              req_session := Some {| session_id := "s2" |};
              req_user_agent := Some "VS Code 1.60" |});
    by vm_compute.
Defined.

(** ** Counting the notifications *)

Lemma count_named_app (name : string) (l l' : list Event) :
  count_named name (l ++ l') = (count_named name l + count_named name l')%nat.
Proof. unfold count_named. by rewrite filter_app, length_app. Qed.

Lemma createProxyTarget_events req server m :
  events (createProxyTarget req server m).2
  = events m
    ++ match contexts m !! id (ClientMetadata.fromRequest req) with
       | Some _ => []
       | None => [EVENT_CLIENT_CONTEXT_CREATED (length (store m))]
       end
    ++ [EVENT_CONNECTION_CREATED server req] ∧
  length (store (createProxyTarget req server m).2)
  = (length (store m)
     + match contexts m !! id (ClientMetadata.fromRequest req) with
       | Some _ => 0
       | None => 1
       end)%nat.
Proof.
  destruct (contexts m !! id (ClientMetadata.fromRequest req)) as [c|] eqn:Hc.
  - rewrite (createProxyTarget_existing _ _ _ _ Hc). simpl.
    rewrite length_alter. split; [done|lia].
  - rewrite (createProxyTarget_fresh _ _ _ Hc). simpl.
    rewrite length_app. simpl. done.
Qed.

Lemma onDidCloseConnection_events h m :
  ∃ evicted : bool,
    events (onDidCloseConnection h m)
    = events m
      ++ [EVENT_CONNECTION_CLOSED (closing_server h) (closing_req h)]
      ++ (if evicted then [EVENT_CLIENT_CONTEXT_CLOSED (closing_ctx h)] else []).
Proof.
  unfold onDidCloseConnection, emit. simpl.
  destruct (alter _ _ _ !! _) as [ctx|]; [|by exists false].
  destruct (WebsocketClientContext.hasNoEndpointsLeft ctx).
  - exists true. simpl. by rewrite <-app_assoc.
  - by exists false.
Qed.

Lemma closed_connections_insert (cs : list (CloseHandler * bool)) (conn : nat)
    (h : CloseHandler) (m m' : WebsocketConnectionManager) :
  cs !! conn = Some (h, true) →
  length (closed_connections
            {| manager := m'; connections := <[conn := (h, false)]> cs |})
  = S (length (closed_connections {| manager := m; connections := cs |})).
Proof.
  unfold closed_connections. simpl. clear m m'. revert conn.
  induction cs as [|c cs IH]; intros [|conn] Hconn; simplify_eq/=.
  - by rewrite !filter_cons.
  - rewrite !filter_cons. case_decide; simpl; by rewrite IH.
Qed.


Lemma closed_connections_snoc (cs : list (CloseHandler * bool)) (h : CloseHandler)
    (m m' : WebsocketConnectionManager) :
  length (closed_connections
            {| manager := m'; connections := cs ++ [(h, true)] |})
  = length (closed_connections {| manager := m; connections := cs |}).
Proof.
  unfold closed_connections. simpl.
  rewrite filter_app, length_app. rewrite filter_cons. simpl. lia.
Qed.

Lemma count_named_cons (name : string) (e : Event) (l : list Event) :
  count_named name (e :: l)
  = ((if decide (event_name e = name) then 1 else 0) + count_named name l)%nat.
Proof. unfold count_named. rewrite filter_cons. by case_decide. Qed.

Lemma count_named_nil (name : string) : count_named name [] = 0%nat.
Proof. done. Qed.

Lemma step_notifications_accounted (w : World) (s : Step) :
  notifications_accounted w → notifications_accounted (step w s).
Proof.
  intros (Hcreated & Hclosed & Hctx & Hle). destruct w as [m cs]. simpl in *.
  destruct s as [req server|conn].
  - rewrite step_Open. simpl.
    destruct (createProxyTarget_events req server m) as [Hev Hlen].
    unfold notifications_accounted. simpl.
    rewrite Hev, Hlen, !count_named_app, length_app, (closed_connections_snoc cs _ m).
    destruct (contexts m !! id (ClientMetadata.fromRequest req));
      rewrite ?count_named_cons, ?count_named_nil; simpl;
      repeat split; lia.
  - simpl. destruct (cs !! conn) as [[h [|]]|] eqn:Hconn;
      [|by repeat split..].
    destruct (onDidCloseConnection_events h m) as [evicted Hev].
    unfold notifications_accounted. simpl.
    rewrite Hev, onDidCloseConnection_store, length_alter, length_insert,
      !count_named_app, (closed_connections_insert cs conn h m) by done.
    destruct evicted; rewrite ?count_named_cons, ?count_named_nil; simpl;
      repeat split; lia.
Qed.

(** X25: whatever connections were opened and closed, each notification is
    accounted for: "connection created" was emitted once per connection
    made, "connection closed" once per connection closed, "context created"
    once per context object made, and "context closed" at most once per
    connection closed. *)
Theorem run_notifications_accounted (steps : list Step) :
  count_named "EVENT_CONNECTION_CREATED" (events (manager (run steps)))
    = length (connections (run steps)) ∧
  count_named "EVENT_CONNECTION_CLOSED" (events (manager (run steps)))
    = length (closed_connections (run steps)) ∧
  count_named "EVENT_CLIENT_CONTEXT_CREATED" (events (manager (run steps)))
    = length (store (manager (run steps))) ∧
  (count_named "EVENT_CLIENT_CONTEXT_CLOSED" (events (manager (run steps)))
   ≤ count_named "EVENT_CONNECTION_CLOSED" (events (manager (run steps))))%nat.
Proof.
  change (notifications_accounted (run steps)).
  induction steps as [|s steps IH] using rev_ind.
  - by repeat split.
  - rewrite run_snoc. by apply step_notifications_accounted.
Qed.

Lemma getClientType_by_prefix_witness :
  getClientType {| req_user := None; req_session := None;
                   req_user_agent := Some "Mozilla/5.0 (X11; Linux x86_64)" |}
  = Some browser.
Proof.
  apply (getClientType_by_prefix
           {| req_user := None; req_session := None;
              req_user_agent := Some "Mozilla/5.0 (X11; Linux x86_64)" |}).
  eexists. split; reflexivity.
Defined.

Lemma removeEndpoint_leaves_prefix_without_uuid_witness :
  uuid server_A ≠ uuid server_B.
Proof.
  apply (removeEndpoint_leaves_prefix_without_uuid server_B
           {| clientMetadata := ClientMetadata.from (Some "u1") None None;
              servers := [server_A; server_B; server_C] |}).
  apply list_elem_of_In. vm_compute. tauto.
Defined.
